(** * EasyCompChem: the EFG extractor of [ORCA_NBO_parsers/extract_EFG_hydrides.py]

    A shallow embedding of the electric-field-gradient scripts: the line
    scanner that isolates the raw 3x3 tensor of every hydride nucleus
    ([extract_raw_efg_matrices]), the scanner for the quadrupole coupling
    constants ([extract_eqQ_and_eta_values]), the orientation resolver
    ([get_canonical_orientation], [format_orientation_output]) and the two
    table drivers ([process_hydride_csv],
    [process_hydride_orientations_csv]).

    Conventions of the model.
    - A Python [str] is a [string] whose characters are the code points
      0..255; the character classes of [re] and of [str.strip] are the
      restrictions of Python's classes to that range.
    - A Python [float] is an exact rational ([Q]): decimal literals denote
      their exact value and arithmetic does not round.
    - A Python [int] is a [Z].
    - A raised exception is the [Raise] result of the [result] monad.
    - [numpy.linalg.eigh] is not part of the repository: it is a parameter
      of the orientation resolver. *)

From Stdlib Require Import ZArith QArith Qabs Qround Lia Lqa String Ascii List.
From Stdlib Require Import DecimalString.
From stdpp Require Import gmap strings list fin_maps.

Import ListNotations.
#[local] Open Scope string_scope.
#[local] Open Scope Z_scope.

(** ** Exceptions *)

Inductive exn : Type :=
| ValueError
| KeyError.

Inductive result (A : Type) : Type :=
| Ok (a : A)
| Raise (e : exn).

Arguments Ok {A} a.
Arguments Raise {A} e.

Definition result_bind {A B} (f : A -> result B) (m : result A) : result B :=
  match m with
  | Ok a => f a
  | Raise e => Raise e
  end.

#[global] Instance result_ret : MRet result := fun _ a => Ok a.
#[global] Instance result_mbind : MBind result := fun _ _ f m => result_bind f m.

Fixpoint mapM_result {A B} (f : A -> result B) (l : list A) : result (list B) :=
  match l with
  | [] => Ok []
  | a :: l' =>
      match f a with
      | Ok b =>
          match mapM_result f l' with
          | Ok bs => Ok (b :: bs)
          | Raise e => Raise e
          end
      | Raise e => Raise e
      end
  end.

Definition returns {A} (m : result A) : Prop := exists a, m = Ok a.

(** ** Characters and strings (Python [str] methods) *)

Module Str.

Definition LF : ascii := "010"%char.
Definition CR : ascii := "013"%char.

(** [\d] on code points below 256: the ten ASCII digits. *)
Definition is_digit (c : ascii) : bool :=
  let n := N_of_ascii c in ((48 <=? n) && (n <=? 57))%N.

(** [\s] and [str.isspace] on code points below 256: TAB..CR, FS..US,
    SPACE, NEL and NBSP. *)
Definition is_space (c : ascii) : bool :=
  let n := N_of_ascii c in
  (((9 <=? n) && (n <=? 13)) || ((28 <=? n) && (n <=? 32))
   || (n =? 133) || (n =? 160))%N.

Definition digit_val (c : ascii) : N := (N_of_ascii c - 48)%N.

Definition is_empty (s : string) : bool :=
  match s with
  | EmptyString => true
  | String _ _ => false
  end.

(** [s.startswith(p)], giving what follows the prefix. *)
Fixpoint strip_prefix (p s : string) : option string :=
  match p with
  | EmptyString => Some s
  | String a p' =>
      match s with
      | EmptyString => None
      | String b s' => if Ascii.eqb a b then strip_prefix p' s' else None
      end
  end.

(** [p in s] *)
Fixpoint contains (p s : string) : bool :=
  match strip_prefix p s with
  | Some _ => true
  | None =>
      match s with
      | EmptyString => false
      | String _ s' => contains p s'
      end
  end.

(** The longest prefix of [s] all of whose characters satisfy [f], and
    the rest: what a greedy [[class]*] consumes. *)
Fixpoint span (f : ascii -> bool) (s : string) : string * string :=
  match s with
  | EmptyString => (EmptyString, EmptyString)
  | String c s' =>
      if f c then let (a, b) := span f s' in (String c a, b)
      else (EmptyString, s)
  end.

Fixpoint lstrip (s : string) : string :=
  match s with
  | EmptyString => EmptyString
  | String c s' => if is_space c then lstrip s' else s
  end.

Fixpoint rstrip (s : string) : string :=
  match s with
  | EmptyString => EmptyString
  | String c s' =>
      let r := rstrip s' in
      if is_empty r && is_space c then EmptyString else String c r
  end.

(** [s.strip()] *)
Definition strip (s : string) : string := rstrip (lstrip s).

(** [s.split(sep)] for a one-character separator. *)
Fixpoint split (sep : ascii) (s : string) : list string :=
  match s with
  | EmptyString => [EmptyString]
  | String c s' =>
      if Ascii.eqb c sep then EmptyString :: split sep s'
      else
        match split sep s' with
        | [] => [String c EmptyString]
        | w :: ws => String c w :: ws
        end
  end.

(** [sep.join(l)] *)
Definition join (sep : string) (l : list string) : string := String.concat sep l.

(** [s.replace(old, new)] for a non-empty [old]: the occurrences are
    replaced from the left and do not overlap; [skip] counts the
    characters of an occurrence still to be dropped. *)
Fixpoint replace_go (old new : string) (skip : nat) (s : string) : string :=
  match s with
  | EmptyString => EmptyString
  | String c s' =>
      match skip with
      | S k => replace_go old new k s'
      | O =>
          match strip_prefix old s with
          | Some _ => new ++ replace_go old new (String.length old - 1) s'
          | None => String c (replace_go old new 0 s')
          end
      end
  end.

Definition replace (old new s : string) : string := replace_go old new 0 s.

(** Text-mode reading translates CR LF and CR to LF. *)
Fixpoint universal_newlines (s : string) : string :=
  match s with
  | EmptyString => EmptyString
  | String c s' =>
      if Ascii.eqb c CR then
        match s' with
        | String d s'' =>
            if Ascii.eqb d LF then String LF (universal_newlines s'')
            else String LF (universal_newlines s')
        | EmptyString => String LF EmptyString
        end
      else String c (universal_newlines s')
  end.

(** The lines of a text, each with its terminator. *)
Fixpoint split_lines (s : string) : list string :=
  match s with
  | EmptyString => []
  | String c s' =>
      if Ascii.eqb c LF then String c EmptyString :: split_lines s'
      else
        match split_lines s' with
        | [] => [String c EmptyString]
        | l :: ls => String c l :: ls
        end
  end.

(** [file.readlines()] of a file opened in text mode. *)
Definition readlines (content : string) : list string :=
  split_lines (universal_newlines content).

(** The value of a string of decimal digits, as a left fold. *)
Fixpoint digits_value (acc : N) (s : string) : N :=
  match s with
  | EmptyString => acc
  | String c s' => digits_value (acc * 10 + digit_val c)%N s'
  end.

Fixpoint all_digits (s : string) : bool :=
  match s with
  | EmptyString => true
  | String c s' => is_digit c && all_digits s'
  end.

End Str.

(** ** Python's [int] and [float] constructors on strings *)

(** The body of a decimal integer literal: digits, with single
    underscores between digits. [prev] tells whether the previous
    character was a digit. *)
Fixpoint int_body (acc : N) (prev : bool) (s : string) : option N :=
  match s with
  | EmptyString => if prev then Some acc else None
  | String c s' =>
      if Str.is_digit c then int_body (acc * 10 + Str.digit_val c)%N true s'
      else if Ascii.eqb c "_" && prev then int_body acc false s'
      else None
  end.

Definition split_sign (s : string) : bool * string :=
  match s with
  | String "-" r => (true, r)
  | String "+" r => (false, r)
  | _ => (false, s)
  end.

(** [int(s)]: surrounding whitespace is dropped, a sign is allowed;
    anything else raises [ValueError]. *)
Definition python_int (s : string) : result Z :=
  let (neg, body) := split_sign (Str.strip s) in
  match int_body 0 false body with
  | Some n => Ok (if neg then - Z.of_N n else Z.of_N n)
  | None => Raise ValueError
  end.

(** The exact value of the decimal literal with integer digits [ip] and
    fraction digits [fp]. *)
Definition decimal_value (neg : bool) (ip fp : string) : Q :=
  let n := Z.of_N (Str.digits_value 0 (ip ++ fp)) in
  Qred (Qmake (if neg then - n else n) (Z.to_pos (10 ^ Z.of_nat (String.length fp)))).

(** [float(s)] on decimal literals without exponent: an optional sign,
    then either digits with an optional point and optional further
    digits, or a point and digits; between optional whitespace. Python accepts more (exponents, underscores, [inf],
    [nan]); none of those can be written with the characters the
    scanners hand to [float], and on every other string the model raises
    [ValueError] as Python does. *)
Definition python_float (s : string) : result Q :=
  let (neg, body) := split_sign (Str.strip s) in
  let (ip, r) := Str.span Str.is_digit body in
  match r with
  | EmptyString =>
      if Str.is_empty ip then Raise ValueError
      else Ok (decimal_value neg ip EmptyString)
  | String "." r' =>
      let (fp, r'') := Str.span Str.is_digit r' in
      if Str.is_empty r'' && negb (Str.is_empty ip && Str.is_empty fp)
      then Ok (decimal_value neg ip fp)
      else Raise ValueError
  | _ => Raise ValueError
  end.

(** ** The regular expressions of the scripts

    Each pattern is a sequence of literals and greedy character classes
    in which a class is always followed by a character outside it: giving
    back characters of a greedy run can never lead to a match, so a match
    attempt at one position is the deterministic function below. *)

Module Re.

(** [re.search]: the match at the leftmost position where there is one. *)
Fixpoint search {A} (match_at : string -> option A) (s : string) : option A :=
  match match_at s with
  | Some g => Some g
  | None =>
      match s with
      | EmptyString => None
      | String _ s' => search match_at s'
      end
  end.

(** [re.findall] with one group spanning the whole pattern: the matches
    from left to right, without overlap. [skip] counts the characters of
    the last match that are still to be stepped over. *)
Fixpoint findall_go (match_at : string -> option string) (skip : nat)
    (s : string) : list string :=
  match s with
  | EmptyString => []
  | String _ s' =>
      match skip with
      | S k => findall_go match_at k s'
      | O =>
          match match_at s with
          | Some tok => tok :: findall_go match_at (String.length tok - 1) s'
          | None => findall_go match_at 0 s'
          end
      end
  end.

Definition findall (match_at : string -> option string) (s : string) : list string :=
  findall_go match_at 0 s.

(** One or more characters of a class, then the rest. *)
Definition plus (f : ascii -> bool) (s : string) : option (string * string) :=
  let (a, b) := Str.span f s in
  if Str.is_empty a then None else Some (a, b).

(** [Nucleus\s+(\d+)H], group 1. *)
Definition nucleus_at (s : string) : option string :=
  match Str.strip_prefix "Nucleus" s with
  | None => None
  | Some r =>
      match plus Str.is_space r with
      | None => None
      | Some (_, r1) =>
          match plus Str.is_digit r1 with
          | None => None
          | Some (ds, r2) =>
              match r2 with
              | String "H" _ => Some ds
              | _ => None
              end
          end
      end
  end.

(** [([-]?\d+\.\d+)], group 1. *)
Definition float_at (s : string) : option string :=
  let (sign, s1) :=
    match s with
    | String c r => if Ascii.eqb c "-" then ("-", r) else ("", s)
    | EmptyString => ("", s)
    end in
  match plus Str.is_digit s1 with
  | None => None
  | Some (ip, r1) =>
      match r1 with
      | String "." r2 =>
          match plus Str.is_digit r2 with
          | None => None
          | Some (fp, _) => Some (sign ++ ip ++ "." ++ fp)
          end
      | _ => None
      end
  end.

(** The class [[-\d.]]. *)
Definition is_numchar (c : ascii) : bool :=
  Ascii.eqb c "-" || Str.is_digit c || Ascii.eqb c ".".

(** [\s+=\s+([-\d.]+)], group 1 and what follows the match. *)
Definition equals_value (s : string) : option (string * string) :=
  match plus Str.is_space s with
  | None => None
  | Some (_, r1) =>
      match r1 with
      | String "=" r2 =>
          match plus Str.is_space r2 with
          | None => None
          | Some (_, r3) => plus is_numchar r3
          end
      | _ => None
      end
  end.

(** [e\*\*2qQ\s+=\s+([-\d.]+)\s+MHz], group 1. *)
Definition eqQ_at (s : string) : option string :=
  match Str.strip_prefix "e**2qQ" s with
  | None => None
  | Some r =>
      match equals_value r with
      | None => None
      | Some (g, r1) =>
          match plus Str.is_space r1 with
          | None => None
          | Some (_, r2) =>
              match Str.strip_prefix "MHz" r2 with
              | Some _ => Some g
              | None => None
              end
          end
      end
  end.

(** [eta\s+=\s+([-\d.]+)], group 1. *)
Definition eta_at (s : string) : option string :=
  match Str.strip_prefix "eta" s with
  | None => None
  | Some r =>
      match equals_value r with
      | None => None
      | Some (g, _) => Some g
      end
  end.

End Re.

(** ** Block Locator and Tensor Assembler: [extract_raw_efg_matrices] *)

(** [np.array(efg_matrix_lines)]: the rows in file order. *)
Definition matrix : Type := list (list Q).

(** The local variables of the loop. *)
Record scan_state : Type := ScanState {
  raw_efg_matrices : gmap Z matrix;
  current_nucleus : option Z;
  efg_section : bool;
  efg_matrix_lines : list (list Q)
}.

Definition scan_init : scan_state :=
  ScanState ∅ None false [].

(** [re.search(r'Nucleus\s+(\d+)H', line)] *)
Definition nucleus_match (line : string) : option string :=
  Re.search Re.nucleus_at line.

(** [re.findall(r'([-]?\d+\.\d+)', line)] *)
Definition values_match (line : string) : list string :=
  Re.findall Re.float_at line.

(** The first statement of the loop body: a marker line resets an open
    section and sets the current nucleus. *)
Definition scan_marker (st : scan_state) (line : string) : result scan_state :=
  match nucleus_match line with
  | Some g =>
      n ← python_int g;
      Ok (ScanState (raw_efg_matrices st) (Some n) false
            (if efg_section st then [] else efg_matrix_lines st))
  | None => Ok st
  end.

(** The last statement of the loop body: inside a section, a line with
    exactly three float tokens is appended, and the third one completes
    the matrix. A section is only ever open with a current nucleus (see
    [section_has_nucleus]); with none, Python would store the matrix
    under the key [None], which no caller looks up, and the model leaves
    the mapping alone. *)
Definition scan_collect (st : scan_state) (line : string) : result scan_state :=
  if efg_section st && (length (efg_matrix_lines st) <? 3)%nat then
    let toks := values_match line in
    rows ← (if (length toks =? 3)%nat
            then row ← mapM_result python_float toks;
                 Ok (efg_matrix_lines st ++ [row])%list
            else Ok (efg_matrix_lines st));
    if (length rows =? 3)%nat then
      Ok (ScanState
            (match current_nucleus st with
             | Some n => <[n := rows]> (raw_efg_matrices st)
             | None => raw_efg_matrices st
             end)
            None false [])
    else
      Ok (ScanState (raw_efg_matrices st) (current_nucleus st)
            (efg_section st) rows)
  else Ok st.

(** [o is not None] *)
Definition is_not_None {A} (o : option A) : bool :=
  match o with
  | Some _ => true
  | None => false
  end.

(** One iteration of [for line in content]. *)
Definition scan_line (st : scan_state) (line : string) : result scan_state :=
  st1 ← scan_marker st line;
  if is_not_None (current_nucleus st1) && Str.contains "Raw EFG matrix" line
  then Ok (ScanState (raw_efg_matrices st1) (current_nucleus st1) true [])
  else scan_collect st1 line.

Fixpoint scan_lines (st : scan_state) (content : list string) : result scan_state :=
  match content with
  | [] => Ok st
  | line :: rest => st' ← scan_line st line; scan_lines st' rest
  end.

(** [extract_raw_efg_matrices], on the text of the file. *)
Definition extract_raw_efg_matrices (content : string) : result (gmap Z matrix) :=
  st ← scan_lines scan_init (Str.readlines content);
  Ok (raw_efg_matrices st).

(** ** Scalar extractor: [extract_eqQ_and_eta_values] *)

Module EqQ.

Record scan_state : Type := ScanState {
  efg_values : gmap Z (Q * Q);
  current_nucleus : option Z;
  current_eqQ : option Q
}.

Definition scan_init : scan_state := ScanState ∅ None None.

(** [re.search(r'e\*\*2qQ\s+=\s+([-\d.]+)\s+MHz', line)] *)
Definition eqQ_match (line : string) : option string :=
  Re.search Re.eqQ_at line.

(** [re.search(r'eta\s+=\s+([-\d.]+)', line)] *)
Definition eta_match (line : string) : option string :=
  Re.search Re.eta_at line.

Definition scan_marker (st : scan_state) (line : string) : result scan_state :=
  match nucleus_match line with
  | Some g =>
      n ← python_int g;
      Ok (ScanState (efg_values st) (Some n) None)
  | None => Ok st
  end.

Definition scan_eqQ (st : scan_state) (line : string) : result scan_state :=
  match eqQ_match line with
  | Some g =>
      v ← python_float g;
      Ok (ScanState (efg_values st) (current_nucleus st) (Some (Qabs v)))
  | None => Ok st
  end.

Definition scan_eta (n : Z) (st : scan_state) (line : string) : result scan_state :=
  match eta_match line, current_eqQ st with
  | Some g, Some eqQ =>
      eta_value ← python_float g;
      Ok (ScanState (<[n := (eqQ, eta_value)]> (efg_values st)) None None)
  | _, _ => Ok st
  end.

Definition scan_line (st : scan_state) (line : string) : result scan_state :=
  st1 ← scan_marker st line;
  match current_nucleus st1 with
  | Some n => st2 ← scan_eqQ st1 line; scan_eta n st2 line
  | None => Ok st1
  end.

Fixpoint scan_lines (st : scan_state) (content : list string) : result scan_state :=
  match content with
  | [] => Ok st
  | line :: rest => st' ← scan_line st line; scan_lines st' rest
  end.

Definition extract_eqQ_and_eta_values (content : string) : result (gmap Z (Q * Q)) :=
  st ← scan_lines scan_init (Str.readlines content);
  Ok (efg_values st).

End EqQ.

(** ** Vectors of three floats *)

Record vec3 : Type := V3 { v_0 : Q; v_1 : Q; v_2 : Q }.

(** A 3x3 array, by rows. *)
Record mat3 : Type := M3 { m_0 : vec3; m_1 : vec3; m_2 : vec3 }.

(** [v[k]] for [k] in [range(3)] *)
Definition item (v : vec3) (k : nat) : Q :=
  match k with
  | O => v_0 v
  | S O => v_1 v
  | _ => v_2 v
  end.

(** [m[:, k]] *)
Definition column (m : mat3) (k : nat) : vec3 :=
  V3 (item (m_0 m) k) (item (m_1 m) k) (item (m_2 m) k).

(** [v.tolist()] *)
Definition tolist (v : vec3) : list Q := [v_0 v; v_1 v; v_2 v].

(** [np.cross(a, b)] *)
Definition cross (a b : vec3) : vec3 :=
  V3 (v_1 a * v_2 b - v_2 a * v_1 b)%Q
     (v_2 a * v_0 b - v_0 a * v_2 b)%Q
     (v_0 a * v_1 b - v_1 a * v_0 b)%Q.

(** [np.dot(a, b)] *)
Definition dot (a b : vec3) : Q :=
  (v_0 a * v_0 b + v_1 a * v_1 b + v_2 a * v_2 b)%Q.

(** [-v] *)
Definition neg (v : vec3) : vec3 := V3 (- v_0 v)%Q (- v_1 v)%Q (- v_2 v)%Q.

(** [np.abs(v)] *)
Definition vabs (v : vec3) : vec3 := V3 (Qabs (v_0 v)) (Qabs (v_1 v)) (Qabs (v_2 v)).

(** [np.argmax] scans for a strictly greater entry, so that among equal
    maxima the first one wins; [best_i] and [best] are the running
    answer and [i] is the index of the head of [l]. *)
Fixpoint argmax_from (best_i : nat) (best : Q) (i : nat) (l : list Q) : nat :=
  match l with
  | [] => best_i
  | x :: l' =>
      if Qlt_le_dec best x then argmax_from i x (S i) l'
      else argmax_from best_i best (S i) l'
  end.

Definition argmax (v : vec3) : nat :=
  argmax_from 0 (v_0 v) 1 [v_1 v; v_2 v].

(** ** Orientation Resolver *)

(** Python's [f'{val:.6f}'] on the exact value of [val]: six decimals,
    ties to even, and a minus sign for every negative value. *)
Definition round_half_even (q : Q) : Z :=
  let f := Qfloor q in
  match Qcompare (q - inject_Z f) (1 # 2) with
  | Lt => f
  | Gt => f + 1
  | Eq => if Z.even f then f else f + 1
  end.

Definition string_of_nat_Z (z : Z) : string :=
  NilZero.string_of_uint (N.to_uint (Z.to_N z)).

Definition format_6f (val : Q) : string :=
  let n := round_half_even (Qabs val * 1000000) in
  (if Qlt_le_dec val 0 then "-" else "")
  ++ string_of_nat_Z (n / 1000000) ++ "."
  ++ match string_of_nat_Z (1000000 + n mod 1000000) with
     | String _ frac => frac
     | EmptyString => EmptyString
     end.

Section Resolver.

(** [np.linalg.eigh]: the eigenvalues and, as the columns of the second
    component, the eigenvectors. *)
Variable eigh : matrix -> vec3 * mat3.

(** [[i for i in range(3) if i != max_abs_idx]] *)
Definition other_indices (max_abs_idx : nat) : list nat :=
  List.filter (fun i => negb (Nat.eqb i max_abs_idx)) (seq 0 3).

(** The three axes computed by [get_canonical_orientation], before they
    are put in the dictionary. *)
Definition canonical_axes (raw_efg_matrix : matrix) : vec3 * vec3 * vec3 :=
  let (eigvals, eigvecs) := eigh raw_efg_matrix in
  let max_abs_idx := argmax (vabs eigvals) in
  let z_axis := column eigvecs max_abs_idx in
  let v1 := column eigvecs (nth 0 (other_indices max_abs_idx) O) in
  let v2 := column eigvecs (nth 1 (other_indices max_abs_idx) O) in
  let x_axis := v1 in
  let y_axis := cross z_axis x_axis in
  let y_axis := if Qlt_le_dec (dot y_axis v2) 0 then neg y_axis else y_axis in
  (x_axis, y_axis, z_axis).

(** [get_canonical_orientation]; the argument is [None] for Python's
    [None] and the result is the dictionary. *)
Definition get_canonical_orientation (raw_efg_matrix : option matrix)
    : gmap string (list Q) :=
  match raw_efg_matrix with
  | None => ∅
  | Some m =>
      let '(x_axis, y_axis, z_axis) := canonical_axes m in
      <["X" := tolist x_axis]> (<["Y" := tolist y_axis]> (<["Z" := tolist z_axis]> ∅))
  end.

End Resolver.

(** [format_orientation_output] *)
Definition format_axis (name : string) (v : list Q) : string :=
  name ++ "(" ++ Str.join "," (map format_6f v) ++ ")".

Definition format_orientation_output (orientation_dict : gmap string (list Q)) : string :=
  if bool_decide (orientation_dict = ∅)
     || existsb (fun key => bool_decide (orientation_dict !! key = None)) ["X"; "Y"; "Z"]
  then "N/A"
  else
    format_axis "X" (orientation_dict !!! "X") ++ ";"
    ++ format_axis "Y" (orientation_dict !!! "Y") ++ ";"
    ++ format_axis "Z" (orientation_dict !!! "Z").

(** ** Tables (the part of pandas the drivers use) *)

(** A cell read from the side table: missing ([NaN]) or text. *)
Inductive cell : Type :=
| NaN
| Text (s : string).

(** A data frame: the column labels in order, and the rows, each a
    mapping from column label to cell. Row labels are the positions. *)
Record DataFrame : Type := Frame {
  columns : list string;
  rows : list (gmap string cell)
}.

(** [row[col]] *)
Definition getitem (row : gmap string cell) (col : string) : result cell :=
  match row !! col with
  | Some c => Ok c
  | None => Raise KeyError
  end.

(** [df[col] = value]: a new column at the end, or every cell of an
    existing column overwritten. *)
Definition set_column (df : DataFrame) (col : string) (value : cell) : DataFrame :=
  Frame (if bool_decide (col ∈ columns df) then columns df else (columns df ++ [col])%list)
        (map (insert col value) (rows df)).

(** [df.at[idx, col] = value] and [df.loc[idx, col] = value] for an
    existing row label and column. *)
Definition set_cell (df : DataFrame) (idx : nat) (col : string) (value : cell) : DataFrame :=
  Frame (columns df) (alter (insert col value) idx (rows df)).

(** [os.path.join(a, b)] on POSIX. *)
Definition ends_with_slash (s : string) : bool :=
  match String.get (String.length s - 1) s with
  | Some c => Ascii.eqb c "/"
  | None => false
  end.

Definition path_join (a b : string) : string :=
  match b with
  | String "/" _ => b
  | _ => if Str.is_empty a || ends_with_slash a then a ++ b else a ++ "/" ++ b
  end.

(** A loop over a list that threads a value and stops at the first
    exception. *)
Fixpoint for_each {A S} (body : A -> S -> result S) (l : list A) (s : S) : result S :=
  match l with
  | [] => Ok s
  | a :: l' => s' ← body a s; for_each body l' s'
  end.

(** [df.iterrows()]: the rows with their labels. *)
Definition iterrows (df : DataFrame) : list (nat * gmap string cell) :=
  zip (seq 0 (length (rows df))) (rows df).

(** The files of the ORCA folder: path to text. [os.path.isfile] is
    membership. *)
Definition folder : Type := gmap string string.

(** [fname.replace('.xyz', '_input.inp.out')] under the folder. *)
Definition orca_path (orca_folder_path filename : string) : string :=
  path_join orca_folder_path (Str.replace ".xyz" "_input.inp.out" filename).

(** The separator of a cell: [';' if ';' in raw else ','] *)
Definition separator_of (raw : string) : ascii :=
  if Str.contains ";" raw then ";"%char else ","%char.

Definition sep_string (c : ascii) : string := String c EmptyString.

(** [[int(i) for i in entry.split(',')]] *)
Definition entry_indices (entry : string) : result (list Z) :=
  mapM_result python_int (Str.split "," entry).

(** ** Driver [process_hydride_csv] *)

Module HydrideCsv.

Definition hydride_cols : list string :=
  ["Hydrides - mu1H"; "Hydrides - mu2H"; "Hydrides - mu3H"; "H2_coord"].

(** The branch [include_eta and col in ['Hydrides - mu2H','Hydrides - mu3H']] *)
Definition with_eta (include_eta : bool) (col : string) : bool :=
  include_eta && bool_decide (col ∈ ["Hydrides - mu2H"; "Hydrides - mu3H"]).

(** One element of [pieces], for the index [i] of the cell. *)
Definition piece (eta : bool) (efg_map : gmap Z (Q * Q)) (i : Z) : string :=
  match efg_map !! (i - 1) with
  | Some val =>
      if eta then "(" ++ format_6f (fst val) ++ "," ++ format_6f (snd val) ++ ")"
      else format_6f (fst val)
  | None => if eta then "(N/A,N/A)" else "N/A"
  end.

(** One element of [out_entries]. *)
Definition out_entry (eta : bool) (efg_map : gmap Z (Q * Q)) (ent : string) : result string :=
  idxs ← entry_indices ent;
  Ok (Str.join "," (map (piece eta efg_map) idxs)).

(** The new text of a cell. *)
Definition cell_text (eta : bool) (efg_map : gmap Z (Q * Q)) (raw : string) : result string :=
  let sep := separator_of raw in
  let entries := map Str.strip (Str.split sep raw) in
  out_entries ← mapM_result (out_entry eta efg_map) entries;
  Ok (Str.join (sep_string sep) out_entries).

Definition col_body (include_eta : bool) (efg_map : gmap Z (Q * Q)) (idx : nat)
    (row : gmap string cell) (col : string) (df_out : DataFrame) : result DataFrame :=
  raw ← getitem row col;
  match raw with
  | NaN => Ok df_out
  | Text raw =>
      text ← cell_text (with_eta include_eta col) efg_map raw;
      Ok (set_cell df_out idx col (Text text))
  end.

Definition row_body (files : folder) (orca_folder_path : string) (include_eta : bool)
    (ir : nat * gmap string cell) (df_out : DataFrame) : result DataFrame :=
  let (idx, row) := ir in
  fname ← getitem row "Filename";
  match fname with
  | NaN => Ok df_out
  | Text fname =>
      match files !! orca_path orca_folder_path fname with
      | None => Ok df_out
      | Some content =>
          efg_map ← EqQ.extract_eqQ_and_eta_values content;
          for_each (col_body include_eta efg_map idx row) hydride_cols df_out
      end
  end.

(** [process_hydride_csv]: from the table read and the folder to the
    table written. *)
Definition process_hydride_csv (df_in : DataFrame) (files : folder)
    (orca_folder_path : string) (include_eta : bool) : result DataFrame :=
  for_each (row_body files orca_folder_path include_eta) (iterrows df_in) df_in.

End HydrideCsv.

(** ** Driver [process_hydride_orientations_csv] *)

Section Orientations.

Variable eigh : matrix -> vec3 * mat3.

(** One element of [entry_orientations], for the index [hydride_idx]. *)
Definition index_orientation (raw_efg_matrices : gmap Z matrix) (hydride_idx : Z) : string :=
  format_orientation_output (get_canonical_orientation eigh (raw_efg_matrices !! hydride_idx)).

(** One element of [orientation_results]. *)
Definition entry_result (raw_efg_matrices : gmap Z matrix) (entry : string) : result string :=
  indices ← entry_indices entry;
  Ok (Str.join "," (map (index_orientation raw_efg_matrices) indices)).

(** The entries of a cell; the loop skips the empty ones. *)
Definition cell_entries (raw : string) : list string :=
  List.filter (fun entry => negb (Str.is_empty entry)) (Str.split (separator_of raw) raw).

(** The text stored in the new column. *)
Definition orientations_text (raw_efg_matrices : gmap Z matrix) (raw : string) : result string :=
  orientation_results ← mapM_result (entry_result raw_efg_matrices) (cell_entries raw);
  Ok (Str.join (sep_string (separator_of raw)) orientation_results).

Definition new_col_name (col : string) : string := col ++ "_orientations".

Definition orient_col_body (raw_efg_matrices : gmap Z matrix) (idx : nat)
    (row : gmap string cell) (col : string) (output_data : DataFrame) : result DataFrame :=
  raw ← getitem row col;
  match raw with
  | NaN => Ok output_data
  | Text raw =>
      text ← orientations_text raw_efg_matrices raw;
      Ok (set_cell output_data idx (new_col_name col) (Text text))
  end.

Definition orient_row_body (files : folder) (orca_folder_path : string)
    (hydride_cols : list string) (ir : nat * gmap string cell)
    (output_data : DataFrame) : result DataFrame :=
  let (idx, row) := ir in
  filename ← getitem row "Filename";
  match filename with
  | NaN => Ok output_data
  | Text filename =>
      match files !! orca_path orca_folder_path filename with
      | None => Ok output_data
      | Some content =>
          raw_efg_matrices ← extract_raw_efg_matrices content;
          for_each (orient_col_body raw_efg_matrices idx row) hydride_cols output_data
      end
  end.

(** [[col for col in input_data.columns if 'Hydrides' in col]] *)
Definition hydride_cols_of (input_data : DataFrame) : list string :=
  List.filter (Str.contains "Hydrides") (columns input_data).

(** The new columns, filled with the empty string. *)
Definition with_new_columns (hydride_cols : list string) (df : DataFrame) : DataFrame :=
  fold_left (fun d col => set_column d (new_col_name col) (Text "")) hydride_cols df.

(** [process_hydride_orientations_csv]: from the table read and the
    folder to the table written. *)
Definition process_hydride_orientations_csv (input_data : DataFrame) (files : folder)
    (orca_folder_path : string) : result DataFrame :=
  let hydride_cols := hydride_cols_of input_data in
  for_each (orient_row_body files orca_folder_path hydride_cols)
    (iterrows input_data) (with_new_columns hydride_cols input_data).

End Orientations.

(** * Vocabulary of the properties *)

(** ** Tokens, lines and blocks *)

(** The shape of a token of the float pattern. *)
Inductive float_token : string -> Prop :=
| float_token_pos ip fp :
    Str.all_digits ip = true -> ip <> "" ->
    Str.all_digits fp = true -> fp <> "" ->
    float_token (ip ++ "." ++ fp)
| float_token_neg ip fp :
    Str.all_digits ip = true -> ip <> "" ->
    Str.all_digits fp = true -> fp <> "" ->
    float_token ("-" ++ ip ++ "." ++ fp).

(** The nucleus index of a marker line. *)
Definition marker_index (line : string) : option Z :=
  match nucleus_match line with
  | Some g =>
      match python_int g with
      | Ok n => Some n
      | Raise _ => None
      end
  | None => None
  end.

Definition nucleus_marker (line : string) (n : Z) : Prop :=
  marker_index line = Some n.

(** The marker pattern does not match the line. *)
Definition no_marker (line : string) : Prop := nucleus_match line = None.

(** Neither a nucleus marker nor the tensor marker. *)
Definition plain (line : string) : Prop :=
  nucleus_match line = None /\ Str.contains "Raw EFG matrix" line = false.

(** The tensor marker, on a line without nucleus marker. *)
Definition raw_marker (line : string) : Prop :=
  nucleus_match line = None /\ Str.contains "Raw EFG matrix" line = true.

(** A plain line whose count of float tokens is not three. *)
Definition skipped (line : string) : Prop :=
  plain line /\ length (values_match line) <> 3%nat.

(** A plain line with exactly three float tokens, of values [r]. *)
Definition data_row (line : string) (r : list Q) : Prop :=
  plain line /\ length (values_match line) = 3%nat
  /\ mapM_result python_float (values_match line) = Ok r.

(** A complete block for nucleus [n]: the marker line, plain lines, the
    tensor marker, and three lines of three floats, with passed-over
    lines anywhere in between. *)
Record block : Type := Block {
  b_marker : string;
  b_head : list string;
  b_raw : string;
  b_gap1 : list string;
  b_row1 : string;
  b_gap2 : list string;
  b_row2 : string;
  b_gap3 : list string;
  b_row3 : string
}.

Definition block_lines (b : block) : list string :=
  (b_marker b :: b_head b ++ b_raw b :: b_gap1 b ++ b_row1 b :: b_gap2 b
   ++ b_row2 b :: b_gap3 b ++ [b_row3 b])%list.

Definition complete_block (b : block) (n : Z) (M : matrix) : Prop :=
  nucleus_marker (b_marker b) n
  /\ Str.contains "Raw EFG matrix" (b_marker b) = false
  /\ Forall plain (b_head b)
  /\ raw_marker (b_raw b)
  /\ Forall skipped (b_gap1 b) /\ Forall skipped (b_gap2 b) /\ Forall skipped (b_gap3 b)
  /\ exists r1 r2 r3,
       data_row (b_row1 b) r1 /\ data_row (b_row2 b) r2 /\ data_row (b_row3 b) r3
       /\ M = [r1; r2; r3].


(** A section is only open for a current nucleus, holds fewer than
    three rows, and no rows wait outside a section. *)
Definition scan_wf (st : scan_state) : Prop :=
  (efg_section st = true -> is_Some (current_nucleus st))
  /\ (length (efg_matrix_lines st) < 3)%nat
  /\ (efg_section st = false -> efg_matrix_lines st = []).

(** The stored matrices have three rows of three floats. *)
Definition is_3x3 (M : matrix) : Prop :=
  length M = 3%nat /\ Forall (fun row => length row = 3%nat) M.

Definition scan_shape (st : scan_state) : Prop :=
  map_Forall (fun _ M => is_3x3 M) (raw_efg_matrices st)
  /\ Forall (fun row => length row = 3%nat) (efg_matrix_lines st).

(** The keys of the mapping and the current nucleus are indices of
    marker lines already read. *)
Definition scan_origin (seen : list string) (st : scan_state) : Prop :=
  (forall k, is_Some (raw_efg_matrices st !! k) ->
             exists line, In line seen /\ nucleus_marker line k)
  /\ (forall k, current_nucleus st = Some k ->
                exists line, In line seen /\ nucleus_marker line k).

(** ** Sample texts *)

(** The text made of the given lines, each ended by LF. *)
Definition text_of_lines (ls : list string) : string :=
  String.concat "" (map (fun l => l ++ String Str.LF "") ls).

(** One line with its terminator. *)
Definition eol (l : string) : string := l ++ String Str.LF "".

(** Nucleus 1 has a single row before the marker of nucleus 2, whose
    block is complete. *)
Definition overlap_text : string :=
  text_of_lines
    [ " Nucleus   1H : A:ISTP=    1";
      " Raw EFG matrix (all values in a.u.**-3):";
      "     0.5   0.5   0.5";
      " Nucleus   2H : A:ISTP=    1";
      " -------------------------";
      " Raw EFG matrix (all values in a.u.**-3):";
      "";
      "     1.0   0.0   0.0";
      "     0.0   2.0   0.0";
      "     0.0   0.0  -5.0";
      " V(Tot)  0.1  0.2" ].


Definition sample_matrix : matrix :=
  [[1; 0; 0]; [0; 2; 0]; [0; 0; -5]]%Q.

Definition other_matrix : matrix :=
  [[3; 0; 0]; [0; 4; 0]; [0; 0; -7]]%Q.




(** The scenario of the specification: nucleus 12 with the tensor
    [diag(1, 2, -5)]. *)
Definition scenario_text : string :=
  text_of_lines
    [ " Nucleus  12H : A:ISTP=    1";
      " Raw EFG matrix (all values in a.u.**-3):";
      " 1.0 0.0 0.0";
      " 0.0 2.0 0.0";
      " 0.0 0.0 -5.0" ].

(** A mercury nucleus, as ORCA prints it for an element with a
    two-letter symbol. *)
Definition mercury_text : string :=
  text_of_lines
    [ " Nucleus   3Hg: A:ISTP=  199";
      " Raw EFG matrix (all values in a.u.**-3):";
      "     1.0   0.0   0.0";
      "     0.0   2.0   0.0";
      "     0.0   0.0  -5.0" ].

(** ** The eigensolver and the frame *)

Section FrameSpec.

#[local] Open Scope Q_scope.

(** Row [i] of a parsed matrix applied to a vector. *)
Definition row_apply (row : list Q) (v : vec3) : Q :=
  nth 0 row 0 * v_0 v + nth 1 row 0 * v_1 v + nth 2 row 0 * v_2 v.

(** [m @ v] *)
Definition mat_apply (m : matrix) (v : vec3) : vec3 :=
  V3 (row_apply (nth 0 m []) v) (row_apply (nth 1 m []) v) (row_apply (nth 2 m []) v).

(** Equality of vectors, component by component. *)
Definition veq (a b : vec3) : Prop :=
  v_0 a == v_0 b /\ v_1 a == v_1 b /\ v_2 a == v_2 b.

(** [c * v] *)
Definition scale (c : Q) (v : vec3) : vec3 := V3 (c * v_0 v) (c * v_1 v) (c * v_2 v).

(** The columns are unit vectors, orthogonal to one another. *)
Definition orthonormal (V : mat3) : Prop :=
  dot (column V 0) (column V 0) == 1
  /\ dot (column V 1) (column V 1) == 1
  /\ dot (column V 2) (column V 2) == 1
  /\ dot (column V 0) (column V 1) == 0
  /\ dot (column V 0) (column V 2) == 0
  /\ dot (column V 1) (column V 2) == 0.

(** What [np.linalg.eigh] promises of its result on [m]: eigenvalues in
    ascending order, each column an eigenvector for the eigenvalue of
    the same index, the columns orthonormal. *)
Definition eigh_spec (m : matrix) (res : vec3 * mat3) : Prop :=
  let (w, V) := res in
  v_0 w <= v_1 w /\ v_1 w <= v_2 w
  /\ (forall k, (k < 3)%nat -> veq (mat_apply m (column V k)) (scale (item w k) (column V k)))
  /\ orthonormal V.

(** [Z . (X x Y)] *)
Definition triple (x y z : vec3) : Q := dot z (cross x y).

(** [diag(1, -5, 3)] *)
Definition diag_1_m5_3 : matrix := [[1; 0; 0]; [0; -5; 0]; [0; 0; 3]].

(** [diag(a, b, c)] *)
Definition diag (a b c : Q) : matrix := [[a; 0; 0]; [0; b; 0]; [0; 0; c]].

(** [np.diag(m)] *)
Definition diagonal (m : matrix) : vec3 :=
  V3 (nth 0 (nth 0 m []) 0) (nth 1 (nth 1 m []) 0) (nth 2 (nth 2 m []) 0).

(** The matrix with the given columns. *)
Definition of_columns (c0 c1 c2 : vec3) : mat3 :=
  M3 (V3 (v_0 c0) (v_0 c1) (v_0 c2))
     (V3 (v_1 c0) (v_1 c1) (v_1 c2))
     (V3 (v_2 c0) (v_2 c1) (v_2 c2)).

(** The first step of a selection sort of three eigenpairs: the first
    least eigenvalue is swapped to the front. *)
Definition select_first (x y z : Q * vec3) : (Q * vec3) * (Q * vec3) * (Q * vec3) :=
  if Qlt_le_dec (fst y) (fst x) then
    if Qlt_le_dec (fst z) (fst y) then (z, y, x) else (y, x, z)
  else
    if Qlt_le_dec (fst z) (fst x) then (z, y, x) else (x, y, z).

(** The second step: the lesser of the last two comes second. *)
Definition select_second (t : (Q * vec3) * (Q * vec3) * (Q * vec3))
    : (Q * vec3) * (Q * vec3) * (Q * vec3) :=
  let '(x, y, z) := t in
  if Qlt_le_dec (fst z) (fst y) then (x, z, y) else (x, y, z).

(** An exact eigensolver for diagonal matrices, with LAPACK's ordering:
    the eigenvalues are the diagonal, sorted by selection, and the
    eigenvectors are the columns of the identity, swapped along. On
    [diag_1_m5_3] it gives the eigenvalues [-5, 1, 3] and the columns
    [e2, e1, e3], of determinant -1. *)
Definition eigh_diagonal (m : matrix) : vec3 * mat3 :=
  let d := diagonal m in
  let '(x, y, z) :=
    select_second
      (select_first (v_0 d, V3 1 0 0) (v_1 d, V3 0 1 0) (v_2 d, V3 0 0 1)) in
  (V3 (fst x) (fst y) (fst z), of_columns (snd x) (snd y) (snd z)).

(** The three kinds of column in an eigendecomposition of
    [diag_1_m5_3]. *)
Definition diag_kind (w : vec3) (V : mat3) (c : nat) : Prop :=
  (item w c == 1 /\ v_1 (column V c) == 0 /\ v_2 (column V c) == 0)
  \/ (item w c == -5 /\ v_0 (column V c) == 0 /\ v_2 (column V c) == 0)
  \/ (item w c == 3 /\ v_0 (column V c) == 0 /\ v_1 (column V c) == 0).

End FrameSpec.

(** ** Tables and cells *)


(** A cell that holds one index in decimal. *)
Definition index_cell (s : string) (i : Z) : Prop :=
  Str.all_digits s = true /\ s <> "" /\ i = Z.of_N (Str.digits_value 0 s).

(** An ORCA text with the nuclei 1 and 2, each with its coupling
    constant and its raw tensor. *)
Definition two_nuclei_text : string :=
  text_of_lines
    [ " Nucleus   1H : A:ISTP=    1";
      " Raw EFG matrix (all values in a.u.**-3):";
      "     1.0   0.0   0.0";
      "     0.0   2.0   0.0";
      "     0.0   0.0  -5.0";
      " e**2qQ            =    -0.250 MHz";
      " eta               =     0.500";
      " Nucleus   2H : A:ISTP=    1";
      " Raw EFG matrix (all values in a.u.**-3):";
      "     3.0   0.0   0.0";
      "     0.0   4.0   0.0";
      "     0.0   0.0  -7.0";
      " e**2qQ            =     0.750 MHz";
      " eta               =     0.125" ].

Definition two_nuclei_folder : folder :=
  {[ "data_EFG/mol_input.inp.out" := two_nuclei_text ]}.


(** The cell of row 0 in a column of a driver's result. *)
Definition result_cell (res : result DataFrame) (col : string) : option cell :=
  match res with
  | Ok df => rows df !! 0%nat ≫= (fun row => row !! col)
  | Raise _ => None
  end.

(** The orientation of [sample_matrix], as formatted. *)
Definition sample_orientation_text : string :=
  "X(1.000000,0.000000,0.000000);Y(0.000000,1.000000,0.000000);Z(0.000000,0.000000,1.000000)".

Section TableSpec.

Variable eigh : matrix -> vec3 * mat3.
Variable files : folder.
Variable orca_folder_path : string.









End TableSpec.




(** ** Vocabulary of the further properties *)

(** The row is the three floats of one of the lines. *)
Definition row_of_lines (seen : list string) (row : list Q) : Prop :=
  exists line, In line seen /\ length (values_match line) = 3%nat
               /\ mapM_result python_float (values_match line) = Ok row.

(** Every row stored or waiting was read from a line. *)
Definition scan_rows (seen : list string) (st : scan_state) : Prop :=
  (forall k M row, raw_efg_matrices st !! k = Some M -> In row M -> row_of_lines seen row)
  /\ (forall row, In row (efg_matrix_lines st) -> row_of_lines seen row).

(** A hydrogen marker with no tensor under it, then the block of a
    carbon nucleus. *)
Definition orphan_text : string :=
  text_of_lines
    [ " junk 1.0 2.0 3.0";
      " Raw EFG matrix";
      " Nucleus   4H :";
      " Nucleus   5C :";
      " Raw EFG matrix";
      " 1.0 0.0 0.0";
      " 0.0 2.0 0.0";
      " 0.0 0.0 -5.0";
      " 9.0 9.0 9.0" ].

(** The state after a marker, the tensor marker and one row. *)
Definition waiting_state : scan_state :=
  ScanState ∅ (Some 1) true [[1 # 2; 1 # 2; 1 # 2]%Q].

Definition orphan_block : block :=
  Block (eol " Nucleus   4H :") [eol " Nucleus   5C :"] (eol " Raw EFG matrix") []
        (eol " 1.0 0.0 0.0") [] (eol " 0.0 2.0 0.0") [] (eol " 0.0 0.0 -5.0").

(** Kinds of lines for the scalar extractor: no pattern matches. *)
Definition eq_quiet (line : string) : Prop :=
  nucleus_match line = None /\ EqQ.eqQ_match line = None /\ EqQ.eta_match line = None.

(** Neither the marker nor the coupling-constant pattern matches. *)
Definition eq_no_eqQ (line : string) : Prop :=
  nucleus_match line = None /\ EqQ.eqQ_match line = None.

(** A marker line for nucleus [n] on which no other pattern matches. *)
Definition eq_marker (line : string) (n : Z) : Prop :=
  nucleus_marker line n /\ EqQ.eqQ_match line = None /\ EqQ.eta_match line = None.

(** A line with the coupling constant [q]. *)
Definition eqQ_line (line : string) (q : Q) : Prop :=
  nucleus_match line = None /\ EqQ.eta_match line = None
  /\ exists g, EqQ.eqQ_match line = Some g /\ python_float g = Ok q.

(** A line with the asymmetry parameter [e]. *)
Definition eta_line (line : string) (e : Q) : Prop :=
  nucleus_match line = None /\ EqQ.eqQ_match line = None
  /\ exists g, EqQ.eta_match line = Some g /\ python_float g = Ok e.

(** A line whose coupling constant is not a number. *)
Definition eqQ_bad_line (line : string) : Prop :=
  nucleus_match line = None
  /\ exists g, EqQ.eqQ_match line = Some g /\ python_float g = Raise ValueError.

(** The values stored are not negative and the keys are indices of
    marker lines already read. *)
Definition eq_inv (seen : list string) (st : EqQ.scan_state) : Prop :=
  (forall k v, EqQ.efg_values st !! k = Some v ->
     (0 <= fst v)%Q /\ exists line, In line seen /\ marker_index line = Some k)
  /\ (forall q, EqQ.current_eqQ st = Some q -> (0 <= q)%Q)
  /\ (forall n, EqQ.current_nucleus st = Some n ->
        exists line, In line seen /\ marker_index line = Some n).

(** One record of the scalar extractor, with an asymmetry parameter
    printed too early. *)
Definition record_text : string :=
  text_of_lines
    [ " e**2qQ            =     9.000 MHz";
      " Nucleus   7H : A:ISTP=    1";
      " eta               =     0.900";
      " e**2qQ            =    -0.250 MHz";
      " -----";
      " eta               =     0.500";
      " e**2qQ            =     8.000 MHz";
      " eta               =     0.800" ].

(** A coupling constant that is no number. *)
Definition bad_number_text : string :=
  text_of_lines
    [ " Nucleus   7H : A:ISTP=    1";
      " e**2qQ            =    -.- MHz";
      " eta               =     0.500" ].


Section CsvSpec.

Variable files : folder.
Variable orca_folder_path : string.
Variable include_eta : bool.

(** The mapping of the ORCA file named by a row, when the row has a
    file name, the file exists and the scalar extractor returns. *)
Definition csv_row_values (row : gmap string cell) : option (gmap Z (Q * Q)) :=
  match row !! "Filename" with
  | Some (Text fname) =>
      match files !! orca_path orca_folder_path fname with
      | Some content =>
          match EqQ.extract_eqQ_and_eta_values content with
          | Ok m => Some m
          | Raise _ => None
          end
      | None => None
      end
  | _ => None
  end.

(** The cell written over a hydride cell that holds text. *)
Definition csv_new_cell (m : gmap Z (Q * Q)) (row : gmap string cell) (col : string)
    : option cell :=
  match row !! col with
  | Some (Text raw) =>
      match HydrideCsv.cell_text (HydrideCsv.with_eta include_eta col) m raw with
      | Ok text => Some (Text text)
      | Raise _ => None
      end
  | _ => None
  end.

Definition csv_col_update (m : gmap Z (Q * Q)) (row acc : gmap string cell) (col : string)
    : gmap string cell :=
  match csv_new_cell m row col with
  | Some c => <[col := c]> acc
  | None => acc
  end.

Definition csv_row_update (row acc : gmap string cell) : gmap string cell :=
  match csv_row_values row with
  | Some m => fold_left (csv_col_update m row) HydrideCsv.hydride_cols acc
  | None => acc
  end.

(** The cell expected in a hydride column of the result. *)
Definition csv_expected (row : gmap string cell) (col : string) : option cell :=
  match csv_row_values row with
  | Some m =>
      match csv_new_cell m row col with
      | Some c => Some c
      | None => row !! col
      end
  | None => row !! col
  end.

(** A row the driver can process: it has a file name, and when its file
    exists the scalar extractor returns, the four hydride columns are
    there and their cells hold integers. *)
Definition csv_row_ok (row : gmap string cell) : Prop :=
  is_Some (row !! "Filename")
  /\ forall fname content,
       row !! "Filename" = Some (Text fname) ->
       files !! orca_path orca_folder_path fname = Some content ->
       exists m, EqQ.extract_eqQ_and_eta_values content = Ok m
         /\ forall col, In col HydrideCsv.hydride_cols ->
              is_Some (row !! col)
              /\ forall raw, row !! col = Some (Text raw) ->
                   returns (HydrideCsv.cell_text (HydrideCsv.with_eta include_eta col) m raw).

End CsvSpec.

(** A table with one column more than the driver reads. *)
Definition csv_table : DataFrame :=
  Frame ["Filename"; "Hydrides - mu1H"; "Hydrides - mu2H"; "Hydrides - mu3H";
         "H2_coord"; "Comment"]
        [ {[ "Filename" := Text "mol.xyz";
             "Hydrides - mu1H" := Text "2;3";
             "Hydrides - mu2H" := Text "2,3";
             "Hydrides - mu3H" := NaN;
             "H2_coord" := NaN;
             "Comment" := Text "1,2" ]};
          {[ "Filename" := Text "gone.xyz";
             "Hydrides - mu1H" := Text "not a number" ]} ].


(** A table without the column of file names. *)
Definition nameless_table : DataFrame :=
  Frame ["Hydrides - mu1H"] [ {[ "Hydrides - mu1H" := Text "1" ]} ].

(** * Properties *)

(** ** Characters *)

Ltac ascii_cases c :=
  destruct c as [[] [] [] [] [] [] [] []]; try discriminate; try reflexivity.

Lemma is_digit_not_space c : Str.is_digit c = true -> Str.is_space c = false.
Proof. ascii_cases c. Qed.

Lemma is_digit_not_underscore c : Str.is_digit c = true -> Ascii.eqb c "_" = false.
Proof. ascii_cases c. Qed.

Lemma split_sign_digit c r :
  Str.is_digit c = true -> split_sign (String c r) = (false, String c r).
Proof. ascii_cases c. Qed.

Lemma is_digit_not_point c : Str.is_digit c = true -> c <> "."%char.
Proof. ascii_cases c. Qed.

(** ** Strings *)

Lemma is_empty_true s : Str.is_empty s = true -> s = "".
Proof. destruct s; [reflexivity | discriminate]. Qed.

Lemma append_cons c a b : String c a ++ b = String c (a ++ b).
Proof. reflexivity. Qed.

Lemma append_nil b : "" ++ b = b.
Proof. reflexivity. Qed.

Lemma all_digits_app a b :
  Str.all_digits (a ++ b) = Str.all_digits a && Str.all_digits b.
Proof.
  induction a as [|c a IH]; simpl; [reflexivity |].
  rewrite IH. apply andb_assoc.
Qed.

(** What [span] returns: the two parts make up the string and the first
    part lies within the class. *)
Lemma span_app f s a b : Str.span f s = (a, b) -> s = a ++ b.
Proof.
  revert a b. induction s as [|c s IH]; simpl; intros a b H.
  - inversion H. reflexivity.
  - destruct (f c).
    + destruct (Str.span f s) as [a' b']. specialize (IH a' b' eq_refl).
      inversion H; subst. reflexivity.
    + inversion H. reflexivity.
Qed.

Lemma span_digits_all s a b :
  Str.span Str.is_digit s = (a, b) -> Str.all_digits a = true.
Proof.
  revert a b. induction s as [|c s IH]; simpl; intros a b H.
  - inversion H. reflexivity.
  - destruct (Str.is_digit c) eqn:D.
    + destruct (Str.span Str.is_digit s) as [a' b']. specialize (IH a' b' eq_refl).
      inversion H; subst. simpl. rewrite D. exact IH.
    + inversion H. reflexivity.
Qed.

(** A run of digits followed by a character that is no digit (or by
    nothing) is exactly what [span] takes. *)
Lemma span_digits_app a b :
  Str.all_digits a = true ->
  match b with
  | EmptyString => True
  | String c _ => Str.is_digit c = false
  end ->
  Str.span Str.is_digit (a ++ b) = (a, b).
Proof.
  intros Ha Hb. induction a as [|c a IH]; simpl in *.
  - destruct b as [|c b]; simpl; [reflexivity | rewrite Hb; reflexivity].
  - apply andb_prop in Ha as [Hc Ha]. rewrite Hc, (IH Ha). reflexivity.
Qed.

Lemma plus_digits s a b :
  Re.plus Str.is_digit s = Some (a, b) ->
  Str.all_digits a = true /\ a <> "" /\ s = a ++ b.
Proof.
  unfold Re.plus. destruct (Str.span Str.is_digit s) as [a' b'] eqn:E.
  destruct (Str.is_empty a') eqn:Em; [discriminate |].
  intros H. inversion H; subst. repeat split.
  - eapply span_digits_all; eauto.
  - intros ->. discriminate.
  - apply span_app in E. exact E.
Qed.

(** [strip] leaves a string alone when neither end is whitespace. *)
Lemma rstrip_digits s : Str.all_digits s = true -> Str.rstrip s = s.
Proof.
  induction s as [|c s IH]; simpl; [reflexivity |].
  intros H. apply andb_prop in H as [Hc Hs]. rewrite (IH Hs).
  rewrite (is_digit_not_space _ Hc), andb_false_r. reflexivity.
Qed.

Lemma rstrip_app a b : b <> "" -> Str.rstrip b = b -> Str.rstrip (a ++ b) = a ++ b.
Proof.
  intros Hb Hr. induction a as [|c a IH]; [exact Hr |].
  rewrite append_cons. simpl. rewrite IH.
  destruct (a ++ b) eqn:E; [| reflexivity].
  destruct a; [rewrite append_nil in E; congruence | discriminate].
Qed.

Lemma strip_digits s : Str.all_digits s = true -> Str.strip s = s.
Proof.
  intros H. unfold Str.strip.
  assert (Str.lstrip s = s) as ->.
  { destruct s as [|c s]; simpl in *; [reflexivity |].
    apply andb_prop in H as [Hc _]. rewrite (is_digit_not_space _ Hc). reflexivity. }
  apply rstrip_digits, H.
Qed.

(** ** [int] and [float] on what the patterns capture *)

Lemma int_body_digits s : forall acc prev,
  Str.all_digits s = true -> (s <> "" \/ prev = true) ->
  int_body acc prev s = Some (Str.digits_value acc s).
Proof.
  induction s as [|c s IH]; simpl; intros acc prev H Hne.
  - destruct Hne as [Hne | ->]; [congruence | reflexivity].
  - apply andb_prop in H as [Hc Hs]. rewrite Hc. apply IH; auto.
Qed.

(** [int] of a non-empty run of digits is its value: the group of the
    nucleus pattern always converts. *)
Lemma python_int_digits s :
  Str.all_digits s = true -> s <> "" ->
  python_int s = Ok (Z.of_N (Str.digits_value 0 s)).
Proof.
  intros H Hne. unfold python_int. rewrite (strip_digits _ H).
  destruct s as [|c s]; [congruence |].
  pose proof H as H'. simpl in H'. apply andb_prop in H' as [Hc _].
  rewrite (split_sign_digit _ _ Hc).
  rewrite (int_body_digits _ 0%N false H); auto.
Qed.

Lemma search_some {A} (m : string -> option A) s g :
  Re.search m s = Some g -> exists t, m t = Some g.
Proof.
  induction s as [|c s IH]; simpl.
  - destruct (m "") eqn:E; [|discriminate]. intros H; inversion H; subst. eauto.
  - destruct (m (String c s)) eqn:E.
    + intros H; inversion H; subst. eauto.
    + exact IH.
Qed.

Lemma nucleus_at_digits s ds :
  Re.nucleus_at s = Some ds -> Str.all_digits ds = true /\ ds <> "".
Proof.
  unfold Re.nucleus_at.
  destruct (Str.strip_prefix "Nucleus" s) as [r|]; [|discriminate].
  destruct (Re.plus Str.is_space r) as [[ws r1]|]; [|discriminate].
  destruct (Re.plus Str.is_digit r1) as [[ds' r2]|] eqn:E; [|discriminate].
  destruct r2 as [|c r2]; [discriminate |].
  destruct (Ascii.eqb_spec c "H"); [| ascii_cases c; congruence].
  subst. intros H. inversion H; subst.
  apply plus_digits in E. tauto.
Qed.

Lemma append_assoc (a b c : string) : (a ++ b) ++ c = a ++ (b ++ c).
Proof.
  induction a as [|x a IH]; [reflexivity |].
  rewrite !append_cons, IH. reflexivity.
Qed.

Lemma append_empty_r (a : string) : a ++ "" = a.
Proof.
  induction a as [|x a IH]; [reflexivity |].
  rewrite append_cons, IH. reflexivity.
Qed.

Lemma float_at_token s tok : Re.float_at s = Some tok -> float_token tok.
Proof.
  unfold Re.float_at.
  set (p := match s with
            | String c r => if Ascii.eqb c "-" then ("-", r) else ("", s)
            | EmptyString => ("", s)
            end).
  assert (fst p = "" \/ fst p = "-") as Hsign.
  { subst p. destruct s as [|c r]; [left; reflexivity |].
    destruct (Ascii.eqb c "-"); [right | left]; reflexivity. }
  destruct p as [sign s1]. simpl in Hsign.
  destruct (Re.plus Str.is_digit s1) as [[ip r1]|] eqn:E1; [|discriminate].
  destruct r1 as [|c r2]; [discriminate |].
  destruct (Ascii.eqb_spec c "."); [| ascii_cases c; congruence].
  subst c.
  destruct (Re.plus Str.is_digit r2) as [[fp r3]|] eqn:E2; [|discriminate].
  intros H. inversion H; subst. clear H.
  apply plus_digits in E1 as (? & ? & _). apply plus_digits in E2 as (? & ? & _).
  destruct Hsign as [-> | ->]; [apply float_token_pos | apply float_token_neg]; assumption.
Qed.

Lemma python_float_digits (neg : bool) (ip fp : string) :
  Str.all_digits ip = true -> ip <> "" ->
  Str.all_digits fp = true -> fp <> "" ->
  python_float ((if neg then "-" else "") ++ ip ++ "." ++ fp)
  = Ok (decimal_value neg ip fp).
Proof.
  intros Hip Hin Hfp Hfn. unfold python_float.
  assert (Str.rstrip fp = fp) as Hr by (apply rstrip_digits, Hfp).
  destruct ip as [|c ip]; [congruence |].
  pose proof Hip as Hc. simpl in Hc. apply andb_prop in Hc as [Hc _].
  assert (Str.strip ((if neg then "-" else "") ++ String c ip ++ "." ++ fp)
          = (if neg then "-" else "") ++ String c ip ++ "." ++ fp) as ->.
  { unfold Str.strip.
    assert (Str.lstrip ((if neg then "-" else "") ++ String c ip ++ "." ++ fp)
            = (if neg then "-" else "") ++ String c ip ++ "." ++ fp) as ->.
    { destruct neg; [reflexivity |].
      rewrite append_nil, append_cons. simpl.
      rewrite (is_digit_not_space _ Hc). reflexivity. }
    rewrite <- !(append_assoc _ _ fp). apply rstrip_app; assumption. }
  assert (split_sign ((if neg then "-" else "") ++ String c ip ++ "." ++ fp)
          = (neg, String c ip ++ "." ++ fp)) as ->.
  { destruct neg; [reflexivity |].
    rewrite append_nil, append_cons. apply split_sign_digit, Hc. }
  rewrite (span_digits_app (String c ip) ("." ++ fp) Hip) by reflexivity.
  change ("." ++ fp) with (String "." fp). cbv iota beta.
  replace fp with (fp ++ "") at 1 by apply append_empty_r.
  rewrite (span_digits_app fp "" Hfp) by exact I.
  reflexivity.
Qed.

(** [float] never fails on a token of the float pattern. *)
Lemma python_float_token tok : float_token tok -> returns (python_float tok).
Proof.
  intros [ip fp ? ? ? ? | ip fp ? ? ? ?].
  - exists (decimal_value false ip fp).
    apply (python_float_digits false); assumption.
  - exists (decimal_value true ip fp).
    apply (python_float_digits true); assumption.
Qed.

Lemma findall_go_In m skip s tok :
  In tok (Re.findall_go m skip s) -> exists t, m t = Some tok.
Proof.
  revert skip. induction s as [|c s IH]; simpl; intros skip H; [contradiction |].
  destruct skip as [|k]; [| eauto].
  destruct (m (String c s)) as [tok'|] eqn:E; [| eauto].
  destruct H as [-> | H]; eauto.
Qed.

Lemma values_match_tokens line tok : In tok (values_match line) -> float_token tok.
Proof.
  intros H. apply findall_go_In in H as [t Ht]. eapply float_at_token, Ht.
Qed.

Lemma mapM_result_returns {A B} (f : A -> result B) l :
  (forall a, In a l -> returns (f a)) -> returns (mapM_result f l).
Proof.
  induction l as [|a l IH]; simpl; intros H; [eexists; reflexivity |].
  destruct (H a (or_introl eq_refl)) as [b ->].
  destruct IH as [bs ->]; [auto |]. eexists; reflexivity.
Qed.

Lemma mapM_result_length {A B} (f : A -> result B) l bs :
  mapM_result f l = Ok bs -> length bs = length l.
Proof.
  revert bs. induction l as [|a l IH]; simpl; intros bs H.
  - inversion H. reflexivity.
  - destruct (f a); [| discriminate].
    destruct (mapM_result f l); [| discriminate].
    inversion H; subst. simpl. f_equal. apply IH. reflexivity.
Qed.

(** The floats of a line always convert. *)
Lemma row_floats_return line : returns (mapM_result python_float (values_match line)).
Proof.
  apply mapM_result_returns. intros tok H.
  apply python_float_token. eapply values_match_tokens, H.
Qed.

(** The index of a marker line always converts. *)
Lemma nucleus_int_returns line g :
  nucleus_match line = Some g -> returns (python_int g).
Proof.
  intros H. apply search_some in H as [t Ht].
  apply nucleus_at_digits in Ht as [Hd Hne].
  eexists. apply python_int_digits; assumption.
Qed.

(** ** The scanner of raw matrices: one line at a time *)

Tactic Notation "rsimpl" :=
  unfold mbind, result_mbind, result_bind; simpl.
Tactic Notation "rsimpl" "in" hyp(H) :=
  unfold mbind, result_mbind, result_bind in H; simpl in H.

Lemma nucleus_marker_inv line n :
  nucleus_marker line n ->
  exists g, nucleus_match line = Some g /\ python_int g = Ok n.
Proof.
  unfold nucleus_marker, marker_index.
  destruct (nucleus_match line) as [g|]; [| discriminate].
  destruct (python_int g) as [k|] eqn:E; [| discriminate].
  intros H; inversion H; subst. exists g. split; [reflexivity | exact E].
Qed.

Lemma scan_marker_none st line : no_marker line -> scan_marker st line = Ok st.
Proof. unfold scan_marker, no_marker. intros ->. reflexivity. Qed.

Lemma scan_marker_some st line n :
  nucleus_marker line n ->
  scan_marker st line
  = Ok (ScanState (raw_efg_matrices st) (Some n) false
          (if efg_section st then [] else efg_matrix_lines st)).
Proof.
  intros H. apply nucleus_marker_inv in H as (g & Hg & Hn).
  unfold scan_marker. rewrite Hg. rsimpl.
  rewrite Hn. reflexivity.
Qed.

Lemma scan_marker_returns st line : returns (scan_marker st line).
Proof.
  unfold scan_marker. destruct (nucleus_match line) as [g|] eqn:E.
  - destruct (nucleus_int_returns _ _ E) as [n Hn]. rsimpl. rewrite Hn.
    eexists; reflexivity.
  - eexists; reflexivity.
Qed.

Lemma scan_collect_returns st line : returns (scan_collect st line).
Proof.
  unfold scan_collect.
  destruct (efg_section st && (length (efg_matrix_lines st) <? 3)%nat);
    [| eexists; reflexivity].
  destruct (length (values_match line) =? 3)%nat.
  - destruct (row_floats_return line) as [row Hrow]. rsimpl. rewrite Hrow.
    destruct (length (efg_matrix_lines st ++ [row]) =? 3)%nat; eexists; reflexivity.
  - rsimpl.
    destruct (length (efg_matrix_lines st) =? 3)%nat; eexists; reflexivity.
Qed.

Lemma scan_line_returns st line : returns (scan_line st line).
Proof.
  unfold scan_line. destruct (scan_marker_returns st line) as [st1 ->]. rsimpl.
  destruct (is_not_None (current_nucleus st1) && Str.contains "Raw EFG matrix" line).
  - eexists; reflexivity.
  - apply scan_collect_returns.
Qed.

Lemma scan_lines_returns content : forall st, returns (scan_lines st content).
Proof.
  induction content as [|line rest IH]; intros st; simpl.
  - eexists; reflexivity.
  - destruct (scan_line_returns st line) as [st' ->]. rsimpl. apply IH.
Qed.

Lemma scan_lines_app l1 l2 : forall st st1,
  scan_lines st l1 = Ok st1 -> scan_lines st (l1 ++ l2) = scan_lines st1 l2.
Proof.
  induction l1 as [|line l1 IH]; simpl; intros st st1 H.
  - inversion H. reflexivity.
  - destruct (scan_line st line) as [st'|] eqn:E; [| discriminate].
    rsimpl. rsimpl in H. apply IH, H.
Qed.

Lemma scan_lines_cons st line st1 rest :
  scan_line st line = Ok st1 -> scan_lines st (line :: rest) = scan_lines st1 rest.
Proof. intros H. simpl. rewrite H. reflexivity. Qed.

(** A line without marker does nothing when no nucleus is current. *)
Lemma scan_line_idle m ls line :
  no_marker line -> scan_line (ScanState m None false ls) line = Ok (ScanState m None false ls).
Proof.
  intros H. unfold scan_line. rewrite (scan_marker_none _ _ H). reflexivity.
Qed.

(** A plain line does nothing while no section is open. *)
Lemma scan_line_closed m cur ls line :
  plain line -> scan_line (ScanState m cur false ls) line = Ok (ScanState m cur false ls).
Proof.
  intros [H1 H2]. unfold scan_line. rewrite (scan_marker_none _ _ H1). rsimpl.
  rewrite H2, ?andb_false_r. reflexivity.
Qed.

(** A marker line closes any open section and sets the nucleus. *)
Lemma scan_line_marker st line n :
  nucleus_marker line n -> Str.contains "Raw EFG matrix" line = false ->
  scan_line st line
  = Ok (ScanState (raw_efg_matrices st) (Some n) false
          (if efg_section st then [] else efg_matrix_lines st)).
Proof.
  intros H1 H2. unfold scan_line. rewrite (scan_marker_some _ _ _ H1). rsimpl.
  rewrite H2. reflexivity.
Qed.


(** The tensor marker opens a section for the current nucleus. *)
Lemma scan_line_raw m n sec ls line :
  raw_marker line ->
  scan_line (ScanState m (Some n) sec ls) line = Ok (ScanState m (Some n) true []).
Proof.
  intros [H1 H2]. unfold scan_line. rewrite (scan_marker_none _ _ H1). rsimpl.
  rewrite H2. reflexivity.
Qed.

(** Inside a section, a line whose count of float tokens is not three
    is passed over. *)
Lemma scan_line_skipped st line :
  skipped line -> scan_line st line = Ok st.
Proof.
  intros [[H1 H2] H3]. unfold scan_line. rewrite (scan_marker_none _ _ H1). rsimpl.
  rewrite H2, ?andb_false_r. unfold scan_collect.
  destruct (efg_section st) eqn:Es; [| reflexivity]. simpl.
  destruct (length (efg_matrix_lines st) <? 3)%nat eqn:El; [| reflexivity].
  apply Nat.eqb_neq in H3. rewrite H3. rsimpl.
  apply Nat.ltb_lt in El.
  destruct (Nat.eqb_spec (length (efg_matrix_lines st)) 3); [lia |].
  destruct st; simpl in *. subst. reflexivity.
Qed.

(** Inside a section, a line of three floats is collected. *)
Lemma scan_line_collect m cur ls line r :
  data_row line r -> (length ls < 2)%nat ->
  scan_line (ScanState m cur true ls) line = Ok (ScanState m cur true (ls ++ [r])).
Proof.
  intros ([H1 H2] & H3 & H4) Hl. unfold scan_line.
  rewrite (scan_marker_none _ _ H1). rsimpl.
  rewrite H2, ?andb_false_r. unfold scan_collect. simpl.
  destruct (Nat.ltb_spec (length ls) 3); [| lia].
  rewrite H3. simpl. rsimpl. rewrite H4.
  destruct (Nat.eqb_spec (length (ls ++ [r])) 3) as [E|E]; [| reflexivity].
  rewrite length_app in E. simpl in E. lia.
Qed.

(** The third line of floats completes the matrix: it is stored under
    the current nucleus and the state returns to idle. *)
Lemma scan_line_complete m n ls line r :
  data_row line r -> length ls = 2%nat ->
  scan_line (ScanState m (Some n) true ls) line
  = Ok (ScanState (<[n := (ls ++ [r])%list]> m) None false []).
Proof.
  intros ([H1 H2] & H3 & H4) Hl. unfold scan_line.
  rewrite (scan_marker_none _ _ H1). rsimpl.
  rewrite H2, ?andb_false_r. unfold scan_collect. simpl.
  destruct (Nat.ltb_spec (length ls) 3); [| lia].
  rewrite H3. simpl. rsimpl. rewrite H4.
  destruct (Nat.eqb_spec (length (ls ++ [r])) 3) as [E|E]; [reflexivity |].
  rewrite length_app in E. simpl in E. lia.
Qed.

(** ** The scanner of raw matrices: runs of lines *)

Lemma scan_lines_idle m l0 ls :
  Forall no_marker ls ->
  scan_lines (ScanState m None false l0) ls = Ok (ScanState m None false l0).
Proof.
  induction 1 as [|line ls H _ IH]; [reflexivity |].
  rewrite (scan_lines_cons _ _ _ _ (scan_line_idle m l0 line H)). exact IH.
Qed.

Lemma scan_lines_closed m cur l0 ls :
  Forall plain ls ->
  scan_lines (ScanState m cur false l0) ls = Ok (ScanState m cur false l0).
Proof.
  induction 1 as [|line ls H _ IH]; [reflexivity |].
  rewrite (scan_lines_cons _ _ _ _ (scan_line_closed m cur l0 line H)). exact IH.
Qed.

Lemma scan_lines_skipped st ls :
  Forall skipped ls -> scan_lines st ls = Ok st.
Proof.
  induction 1 as [|line ls H _ IH]; [reflexivity |].
  rewrite (scan_lines_cons _ _ _ _ (scan_line_skipped st line H)). exact IH.
Qed.

(** Whatever the state before it, a complete block stores its matrix
    under its nucleus and leaves the scanner idle. *)
Lemma scan_lines_block b n M st :
  complete_block b n M ->
  scan_lines st (block_lines b)
  = Ok (ScanState (<[n := M]> (raw_efg_matrices st)) None false []).
Proof.
  intros (Hm & Hmr & Hh & Hr & Hg1 & Hg2 & Hg3 & r1 & r2 & r3 & H1 & H2 & H3 & ->).
  unfold block_lines.
  rewrite (scan_lines_cons _ _ _ _ (scan_line_marker st _ n Hm Hmr)).
  erewrite scan_lines_app by (apply scan_lines_closed, Hh).
  rewrite (scan_lines_cons _ _ _ _ (scan_line_raw _ n _ _ _ Hr)).
  erewrite scan_lines_app by (apply scan_lines_skipped, Hg1).
  rewrite (scan_lines_cons _ _ _ _ (scan_line_collect _ _ [] _ r1 H1 ltac:(simpl; lia))).
  erewrite scan_lines_app by (apply scan_lines_skipped, Hg2).
  rewrite (scan_lines_cons _ _ _ _ (scan_line_collect _ _ [r1] _ r2 H2 ltac:(simpl; lia))).
  erewrite scan_lines_app by (apply scan_lines_skipped, Hg3).
  rewrite (scan_lines_cons _ _ _ _ (scan_line_complete _ n [r1; r2] _ r3 H3 eq_refl)).
  reflexivity.
Qed.




(** ** Invariants of the scanner *)

Lemma scan_line_wf st line st' :
  scan_wf st -> scan_line st line = Ok st' -> scan_wf st'.
Proof.
  intros (W1 & W2 & W3). unfold scan_line.
  destruct (scan_marker_returns st line) as [st1 Hst1]. rewrite Hst1. rsimpl.
  assert (scan_wf st1) as (V1 & V2 & V3).
  { unfold scan_marker in Hst1. destruct (nucleus_match line) as [g|].
    - destruct (python_int g); rsimpl in Hst1; [| discriminate].
      inversion Hst1; subst. unfold scan_wf; simpl.
      split; [discriminate |].
      destruct (efg_section st); simpl; auto with lia.
    - inversion Hst1; subst. unfold scan_wf. auto. }
  destruct (is_not_None (current_nucleus st1) && Str.contains "Raw EFG matrix" line) eqn:E.
  { intros H; inversion H; subst. unfold scan_wf; simpl.
    apply andb_prop in E as [E _]. destruct (current_nucleus st1); [| discriminate].
    repeat split; eauto with lia; discriminate. }
  unfold scan_collect.
  destruct (efg_section st1 && (length (efg_matrix_lines st1) <? 3)%nat) eqn:Ec.
  2:{ intros H; inversion H; subst. unfold scan_wf. auto. }
  apply andb_prop in Ec as [Es Ec].
  destruct (length (values_match line) =? 3)%nat; simpl.
  - destruct (mapM_result python_float (values_match line)) as [row|]; rsimpl;
      [| discriminate].
    destruct (Nat.eqb_spec (length (efg_matrix_lines st1 ++ [row])) 3) as [E'|E'];
      rewrite length_app in E'; simpl in E';
      intros H; inversion H; subst; unfold scan_wf; simpl.
    + repeat split; auto with lia; discriminate.
    + rewrite length_app. simpl. repeat split; auto with lia; congruence.
  - rsimpl. destruct (Nat.eqb_spec (length (efg_matrix_lines st1)) 3); [lia |].
    intros H; inversion H; subst; unfold scan_wf; simpl.
    repeat split; auto; congruence.
Qed.

Lemma scan_lines_wf ls : forall st st',
  scan_wf st -> scan_lines st ls = Ok st' -> scan_wf st'.
Proof.
  induction ls as [|line ls IH]; simpl; intros st st' W H.
  - inversion H; subst. exact W.
  - destruct (scan_line st line) as [st1|] eqn:E; rsimpl in H; [| discriminate].
    eapply IH; [| exact H]. eapply scan_line_wf; eauto.
Qed.

Lemma scan_init_wf : scan_wf scan_init.
Proof. unfold scan_wf, scan_init; simpl. repeat split; auto with lia; discriminate. Qed.

(** [section_has_nucleus]: in every state the scanner reaches, an open
    section has a current nucleus. *)
Lemma section_has_nucleus ls st :
  scan_lines scan_init ls = Ok st ->
  efg_section st = true -> is_Some (current_nucleus st).
Proof.
  intros H. apply (scan_lines_wf _ _ _ scan_init_wf H).
Qed.

Lemma scan_line_shape st line st' :
  scan_shape st -> scan_line st line = Ok st' -> scan_shape st'.
Proof.
  intros [S1 S2]. unfold scan_line.
  destruct (scan_marker_returns st line) as [st1 Hst1]. rewrite Hst1. rsimpl.
  assert (scan_shape st1) as [T1 T2].
  { unfold scan_marker in Hst1. destruct (nucleus_match line) as [g|].
    - destruct (python_int g); rsimpl in Hst1; [| discriminate].
      inversion Hst1; subst. split; simpl; [assumption |].
      destruct (efg_section st); [constructor | assumption].
    - inversion Hst1; subst. split; assumption. }
  destruct (is_not_None (current_nucleus st1) && Str.contains "Raw EFG matrix" line).
  { intros H; inversion H; subst. split; simpl; [assumption | constructor]. }
  unfold scan_collect.
  destruct (efg_section st1 && (length (efg_matrix_lines st1) <? 3)%nat).
  2:{ intros H; inversion H; subst. split; assumption. }
  assert (forall rows,
    Forall (fun row : list Q => length row = 3%nat) rows ->
    (if (length rows =? 3)%nat
     then Ok (ScanState
                (match current_nucleus st1 with
                 | Some n => <[n := rows]> (raw_efg_matrices st1)
                 | None => raw_efg_matrices st1
                 end) None false [])
     else Ok (ScanState (raw_efg_matrices st1) (current_nucleus st1)
                (efg_section st1) rows)) = Ok st' -> scan_shape st') as Hfin.
  { intros rows Hrows. destruct (Nat.eqb_spec (length rows) 3) as [E|E];
      intros H; inversion H; subst; split; simpl.
    - destruct (current_nucleus st1); [| assumption].
      apply map_Forall_insert_2; [split |]; assumption.
    - constructor.
    - assumption.
    - assumption. }
  destruct (Nat.eqb_spec (length (values_match line)) 3) as [E3|E3]; simpl.
  - destruct (mapM_result python_float (values_match line)) as [row|] eqn:Er; rsimpl;
      [| discriminate].
    apply Hfin. apply Forall_app. split; [assumption |].
    constructor; [| constructor].
    apply mapM_result_length in Er. lia.
  - rsimpl. apply Hfin. assumption.
Qed.

Lemma scan_lines_shape ls : forall st st',
  scan_shape st -> scan_lines st ls = Ok st' -> scan_shape st'.
Proof.
  induction ls as [|line ls IH]; simpl; intros st st' W H.
  - inversion H; subst. exact W.
  - destruct (scan_line st line) as [st1|] eqn:E; rsimpl in H; [| discriminate].
    eapply IH; [| exact H]. eapply scan_line_shape; eauto.
Qed.

(** No partial matrix is stored, whatever the text. *)
Lemma stored_matrices_3x3 content m k M :
  extract_raw_efg_matrices content = Ok m -> m !! k = Some M -> is_3x3 M.
Proof.
  unfold extract_raw_efg_matrices.
  destruct (scan_lines scan_init (Str.readlines content)) as [st|] eqn:E; rsimpl;
    [| discriminate].
  intros H Hk. inversion H; subst.
  assert (scan_shape st) as [S _].
  { eapply scan_lines_shape; [| exact E]. split; [apply map_Forall_empty | constructor]. }
  exact (S k M Hk).
Qed.

Lemma scan_origin_mono seen line st :
  scan_origin seen st -> scan_origin (seen ++ [line]) st.
Proof.
  intros [O1 O2]. split; intros k Hk;
    [destruct (O1 k Hk) as (l & Hl & Hm) | destruct (O2 k Hk) as (l & Hl & Hm)];
    exists l; (split; [apply in_or_app; left; assumption | assumption]).
Qed.

Lemma scan_line_origin seen st line st' :
  scan_origin seen st -> scan_line st line = Ok st' ->
  scan_origin (seen ++ [line]) st'.
Proof.
  intros O. unfold scan_line.
  destruct (scan_marker_returns st line) as [st1 Hst1]. rewrite Hst1. rsimpl.
  assert (scan_origin (seen ++ [line]) st1) as [P1 P2].
  { unfold scan_marker in Hst1. destruct (nucleus_match line) as [g|] eqn:Eg.
    - destruct (python_int g) as [n|] eqn:En; rsimpl in Hst1; [| discriminate].
      inversion Hst1; subst. split; simpl.
      + apply (scan_origin_mono seen line st O).
      + intros k Hk. inversion Hk; subst. exists line. split.
        * apply in_or_app; right; left; reflexivity.
        * unfold nucleus_marker, marker_index. rewrite Eg, En. reflexivity.
    - inversion Hst1; subst. apply scan_origin_mono, O. }
  destruct (is_not_None (current_nucleus st1) && Str.contains "Raw EFG matrix" line).
  { intros H; inversion H; subst. split; assumption. }
  unfold scan_collect.
  destruct (efg_section st1 && (length (efg_matrix_lines st1) <? 3)%nat).
  2:{ intros H; inversion H; subst. split; assumption. }
  assert (forall rows,
    (if (length rows =? 3)%nat
     then Ok (ScanState
                (match current_nucleus st1 with
                 | Some n => <[n := rows]> (raw_efg_matrices st1)
                 | None => raw_efg_matrices st1
                 end) None false [])
     else Ok (ScanState (raw_efg_matrices st1) (current_nucleus st1)
                (efg_section st1) rows)) = Ok st' ->
    scan_origin (seen ++ [line]) st') as Hfin.
  { intros rows. destruct (length rows =? 3)%nat;
      intros H; inversion H; subst; split; simpl; try assumption; try discriminate.
    destruct (current_nucleus st1) as [n|] eqn:Ec; [| assumption].
    intros k Hk. destruct (decide (n = k)) as [->|Hne].
    - apply P2. reflexivity.
    - rewrite lookup_insert_ne in Hk by assumption. apply P1, Hk. }
  destruct (length (values_match line) =? 3)%nat; simpl.
  - destruct (mapM_result python_float (values_match line)) as [row|]; rsimpl;
      [| discriminate].
    apply Hfin.
  - rsimpl. apply Hfin.
Qed.

Lemma scan_lines_origin ls : forall seen st st',
  scan_origin seen st -> scan_lines st ls = Ok st' ->
  scan_origin (seen ++ ls) st'.
Proof.
  induction ls as [|line ls IH]; simpl; intros seen st st' O H.
  - inversion H; subst. rewrite app_nil_r. exact O.
  - destruct (scan_line st line) as [st1|] eqn:E; rsimpl in H; [| discriminate].
    replace (seen ++ line :: ls)%list with ((seen ++ [line]) ++ ls)%list
      by (rewrite <- app_assoc; reflexivity).
    eapply IH; [| exact H]. eapply scan_line_origin; eauto.
Qed.

(** Every key of the result is the index of a marker line of the text. *)
Lemma keys_from_markers content m k :
  extract_raw_efg_matrices content = Ok m -> is_Some (m !! k) ->
  exists line, In line (Str.readlines content) /\ nucleus_marker line k.
Proof.
  unfold extract_raw_efg_matrices.
  destruct (scan_lines scan_init (Str.readlines content)) as [st|] eqn:E; rsimpl;
    [| discriminate].
  intros H Hk. inversion H; subst.
  assert (scan_origin ([] ++ Str.readlines content) st) as [O _].
  { eapply scan_lines_origin; [| exact E].
    split; simpl; intros k'; [rewrite lookup_empty; intros [? ?] |]; discriminate. }
  exact (O k Hk).
Qed.

(** A line on which the marker pattern does not match never sets the
    current nucleus. *)
Lemma scan_line_no_marker_current st line st' :
  no_marker line -> scan_line st line = Ok st' ->
  current_nucleus st' = current_nucleus st \/ current_nucleus st' = None.
Proof.
  intros Hn. unfold scan_line. rewrite (scan_marker_none _ _ Hn). rsimpl.
  destruct (is_not_None (current_nucleus st) && Str.contains "Raw EFG matrix" line).
  { intros H; inversion H; subst. left; reflexivity. }
  unfold scan_collect.
  destruct (efg_section st && (length (efg_matrix_lines st) <? 3)%nat).
  2:{ intros H; inversion H; subst. left; reflexivity. }
  destruct (length (values_match line) =? 3)%nat; simpl.
  - destruct (mapM_result python_float (values_match line)) as [row|]; rsimpl;
      [| discriminate].
    destruct (length (efg_matrix_lines st ++ [row]) =? 3)%nat;
      intros H; inversion H; subst; auto.
  - rsimpl. destruct (length (efg_matrix_lines st) =? 3)%nat;
      intros H; inversion H; subst; auto.
Qed.

(** The entry of a nucleus is untouched by lines that hold no marker
    for it, once it is not the current nucleus. *)
Lemma scan_line_frame n st line st' :
  marker_index line <> Some n -> current_nucleus st <> Some n ->
  scan_line st line = Ok st' ->
  raw_efg_matrices st' !! n = raw_efg_matrices st !! n
  /\ current_nucleus st' <> Some n.
Proof.
  intros Hm Hc. unfold scan_line.
  destruct (scan_marker_returns st line) as [st1 Hst1]. rewrite Hst1. rsimpl.
  assert (raw_efg_matrices st1 = raw_efg_matrices st
          /\ current_nucleus st1 <> Some n) as [E1 E2].
  { unfold scan_marker in Hst1. unfold marker_index in Hm.
    destruct (nucleus_match line) as [g|].
    - destruct (python_int g) as [k|]; rsimpl in Hst1; [| discriminate].
      inversion Hst1; subst. simpl. split; [reflexivity | assumption].
    - inversion Hst1; subst. split; [reflexivity | assumption]. }
  destruct (is_not_None (current_nucleus st1) && Str.contains "Raw EFG matrix" line).
  { intros H; inversion H; subst. simpl. rewrite E1. split; [reflexivity | assumption]. }
  unfold scan_collect.
  destruct (efg_section st1 && (length (efg_matrix_lines st1) <? 3)%nat).
  2:{ intros H; inversion H; subst. rewrite E1. split; [reflexivity | assumption]. }
  assert (forall rows,
    (if (length rows =? 3)%nat
     then Ok (ScanState
                (match current_nucleus st1 with
                 | Some n => <[n := rows]> (raw_efg_matrices st1)
                 | None => raw_efg_matrices st1
                 end) None false [])
     else Ok (ScanState (raw_efg_matrices st1) (current_nucleus st1)
                (efg_section st1) rows)) = Ok st' ->
    raw_efg_matrices st' !! n = raw_efg_matrices st !! n
    /\ current_nucleus st' <> Some n) as Hfin.
  { intros rows. destruct (length rows =? 3)%nat;
      intros H; inversion H; subst; simpl; rewrite <- E1.
    - split; [| discriminate].
      destruct (current_nucleus st1) as [k|]; [| reflexivity].
      apply lookup_insert_ne. congruence.
    - split; [reflexivity | assumption]. }
  destruct (length (values_match line) =? 3)%nat; simpl.
  - destruct (mapM_result python_float (values_match line)) as [row|]; rsimpl;
      [| discriminate].
    apply Hfin.
  - rsimpl. apply Hfin.
Qed.

Lemma scan_lines_frame n ls : forall st st',
  Forall (fun line => marker_index line <> Some n) ls ->
  current_nucleus st <> Some n ->
  scan_lines st ls = Ok st' ->
  raw_efg_matrices st' !! n = raw_efg_matrices st !! n.
Proof.
  induction ls as [|line ls IH]; simpl; intros st st' Hf Hc H.
  - inversion H; subst. reflexivity.
  - destruct (scan_line st line) as [st1|] eqn:E; rsimpl in H; [| discriminate].
    inversion Hf; subst.
    destruct (scan_line_frame n _ _ _ ltac:(eassumption) Hc E) as [E1 E2].
    rewrite <- E1. eapply IH; eauto.
Qed.

(** ** Claims on the Block Locator *)








(** C7. A marker line that names mercury sets the current nucleus: its
    tensor is stored under the index 3. *)
Theorem mercury_marker_sets_nucleus :
  nucleus_match (eol " Nucleus   3Hg: A:ISTP=  199") = Some "3"
  /\ extract_raw_efg_matrices mercury_text = Ok {[ 3 := sample_matrix ]}.
Proof. split; vm_compute; reflexivity. Qed.

(** ** The eigensolver and the frame *)

Section Frame.

#[local] Open Scope Q_scope.

Lemma argmax_lt_3 w : (argmax w < 3)%nat.
Proof.
  unfold argmax. simpl.
  destruct (Qlt_le_dec (v_0 w) (v_1 w)); simpl;
    [destruct (Qlt_le_dec (v_1 w) (v_2 w)) | destruct (Qlt_le_dec (v_0 w) (v_2 w))];
    lia.
Qed.

(** [np.argmax]: an index of a greatest entry, and the first such. *)
Lemma argmax_spec w :
  (forall j, (j < 3)%nat -> item w j <= item w (argmax w))
  /\ (forall j, (j < argmax w)%nat -> item w j < item w (argmax w)).
Proof.
  unfold argmax. simpl.
  destruct (Qlt_le_dec (v_0 w) (v_1 w)); simpl;
    [destruct (Qlt_le_dec (v_1 w) (v_2 w)) | destruct (Qlt_le_dec (v_0 w) (v_2 w))];
    (split; intros j Hj;
     destruct j as [|[|[|j]]]; simpl; try lia; try lra).
Qed.

Lemma other_indices_cases k :
  (k < 3)%nat ->
  exists i j, other_indices k = [i; j] /\ (i < j)%nat /\ (j < 3)%nat
              /\ i <> k /\ j <> k.
Proof.
  intros H. destruct k as [|[|[|k]]]; [| | | lia].
  - exists 1%nat, 2%nat. repeat split; auto with lia.
  - exists 0%nat, 2%nat. repeat split; auto with lia.
  - exists 0%nat, 1%nat. repeat split; auto with lia.
Qed.

Lemma orthonormal_unit V k : orthonormal V -> (k < 3)%nat -> dot (column V k) (column V k) == 1.
Proof.
  intros (H0 & H1 & H2 & _) Hk. destruct k as [|[|[|k]]]; [assumption .. | lia].
Qed.

Lemma dot_comm a b : dot a b == dot b a.
Proof. unfold dot. ring. Qed.

Lemma orthonormal_orth V i j :
  orthonormal V -> (i < 3)%nat -> (j < 3)%nat -> i <> j ->
  dot (column V i) (column V j) == 0.
Proof.
  intros (_ & _ & _ & H01 & H02 & H12) Hi Hj Hne.
  destruct i as [|[|[|i]]]; destruct j as [|[|[|j]]]; try lia;
    try assumption; rewrite dot_comm; assumption.
Qed.








Lemma item_vabs w j : item (vabs w) j = Qabs (item w j).
Proof. destruct j as [|[|j]]; reflexivity. Qed.

(** The axes in terms of the columns chosen. *)
Lemma canonical_axes_eq (eigh : matrix -> vec3 * mat3) m :
  exists w V k i j,
    eigh m = (w, V) /\ k = argmax (vabs w) /\ other_indices k = [i; j]
    /\ (k < 3)%nat /\ (i < j)%nat /\ (j < 3)%nat /\ i <> k /\ j <> k
    /\ canonical_axes eigh m
       = (column V i,
          (if Qlt_le_dec (dot (cross (column V k) (column V i)) (column V j)) 0
           then neg (cross (column V k) (column V i))
           else cross (column V k) (column V i)),
          column V k).
Proof.
  unfold canonical_axes. destruct (eigh m) as [w V].
  pose proof (argmax_lt_3 (vabs w)) as Hk.
  destruct (other_indices_cases _ Hk) as (i & j & Ho & Hij & Hj & Hik & Hjk).
  exists w, V, (argmax (vabs w)), i, j. rewrite Ho. simpl.
  repeat split; auto.
Qed.



(** An eigenvector of [diag_1_m5_3] lies along one coordinate axis. *)
Lemma eigen_diag_cases x y z lam :
  1 * x + 0 * y + 0 * z == lam * x ->
  0 * x + -5 * y + 0 * z == lam * y ->
  0 * x + 0 * y + 3 * z == lam * z ->
  x * x + y * y + z * z == 1 ->
  (lam == 1 /\ y == 0 /\ z == 0)
  \/ (lam == -5 /\ x == 0 /\ z == 0)
  \/ (lam == 3 /\ x == 0 /\ y == 0).
Proof.
  intros Hx Hy Hz Hn.
  assert ((1 - lam) * x == 0) as Ex by lra.
  assert ((-5 - lam) * y == 0) as Ey by lra.
  assert ((3 - lam) * z == 0) as Ez by lra.
  apply Qmult_integral in Ex, Ey, Ez.
  destruct Ex as [Ex|Ex], Ey as [Ey|Ey], Ez as [Ez|Ez]; try lra.
  exfalso. rewrite Ex, Ey, Ez in Hn. lra.
Qed.

(** Two unit vectors along the same coordinate axis are not orthogonal. *)
Lemma axis_clash x1 y1 z1 x2 y2 z2 :
  x1 * x1 + y1 * y1 + z1 * z1 == 1 -> x2 * x2 + y2 * y2 + z2 * z2 == 1 ->
  x1 * x2 + y1 * y2 + z1 * z2 == 0 ->
  y1 == 0 -> z1 == 0 -> y2 == 0 -> z2 == 0 -> False.
Proof.
  intros N1 N2 O Hy1 Hz1 Hy2 Hz2.
  rewrite Hy1, Hz1 in N1, O. rewrite Hy2, Hz2 in N2.
  assert (x1 * x2 == 0) as E by lra.
  apply Qmult_integral in E as [E|E]; [rewrite E in N1 | rewrite E in N2]; lra.
Qed.

Lemma x_axis_clash V a b :
  orthonormal V -> (a < 3)%nat -> (b < 3)%nat -> a <> b ->
  v_1 (column V a) == 0 -> v_2 (column V a) == 0 ->
  v_1 (column V b) == 0 -> v_2 (column V b) == 0 -> False.
Proof.
  intros Ho Ha Hb Hab H1 H2 H3 H4.
  pose proof (orthonormal_unit V a Ho Ha) as N1.
  pose proof (orthonormal_unit V b Ho Hb) as N2.
  pose proof (orthonormal_orth V a b Ho Ha Hb Hab) as O.
  unfold dot in N1, N2, O.
  exact (axis_clash _ _ _ _ _ _ N1 N2 O H1 H2 H3 H4).
Qed.

Lemma z_axis_clash V a b :
  orthonormal V -> (a < 3)%nat -> (b < 3)%nat -> a <> b ->
  v_0 (column V a) == 0 -> v_1 (column V a) == 0 ->
  v_0 (column V b) == 0 -> v_1 (column V b) == 0 -> False.
Proof.
  intros Ho Ha Hb Hab H1 H2 H3 H4.
  pose proof (orthonormal_unit V a Ho Ha) as N1.
  pose proof (orthonormal_unit V b Ho Hb) as N2.
  pose proof (orthonormal_orth V a b Ho Ha Hb Hab) as O.
  unfold dot in N1, N2, O.
  apply (axis_clash (v_2 (column V a)) (v_0 (column V a)) (v_1 (column V a))
           (v_2 (column V b)) (v_0 (column V b)) (v_1 (column V b)));
    try assumption; lra.
Qed.

Lemma diag_column_kind w V c :
  eigh_spec diag_1_m5_3 (w, V) -> (c < 3)%nat -> diag_kind w V c.
Proof.
  intros (_ & _ & He & Ho) Hc.
  destruct (He c Hc) as (Ex & Ey & Ez). simpl in Ex, Ey, Ez.
  unfold row_apply in Ex, Ey, Ez. simpl in Ex, Ey, Ez.
  pose proof (orthonormal_unit V c Ho Hc) as N. unfold dot in N.
  exact (eigen_diag_cases _ _ _ _ Ex Ey Ez N).
Qed.

(** Some column belongs to the eigenvalue -5. *)
Lemma diag_has_m5 w V :
  eigh_spec diag_1_m5_3 (w, V) ->
  exists j, (j < 3)%nat /\ item w j == -5.
Proof.
  intros Hs. pose proof Hs as (_ & _ & _ & Ho).
  destruct (diag_column_kind w V 0 Hs ltac:(lia)) as [K0|[K0|K0]];
    [| exists 0%nat; split; [lia | tauto] |];
  (destruct (diag_column_kind w V 1 Hs ltac:(lia)) as [K1|[K1|K1]];
    [| exists 1%nat; split; [lia | tauto] |]);
  (destruct (diag_column_kind w V 2 Hs ltac:(lia)) as [K2|[K2|K2]];
    [| exists 2%nat; split; [lia | tauto] |]);
  exfalso;
  first
    [ apply (x_axis_clash V 0 1 Ho); solve [lia | tauto]
    | apply (x_axis_clash V 0 2 Ho); solve [lia | tauto]
    | apply (x_axis_clash V 1 2 Ho); solve [lia | tauto]
    | apply (z_axis_clash V 0 1 Ho); solve [lia | tauto]
    | apply (z_axis_clash V 0 2 Ho); solve [lia | tauto]
    | apply (z_axis_clash V 1 2 Ho); solve [lia | tauto] ].
Qed.

Lemma square_one y : y * y == 1 -> y == 1 \/ y == -1.
Proof.
  intros H. assert ((y - 1) * (y + 1) == 0) as E by lra.
  apply Qmult_integral in E as [E|E]; [left | right]; lra.
Qed.

(** The column of greatest magnitude of eigenvalue is along the second
    coordinate axis. *)
Lemma diag_greatest_column w V :
  eigh_spec diag_1_m5_3 (w, V) ->
  let z := column V (argmax (vabs w)) in
  item w (argmax (vabs w)) == -5
  /\ v_0 z == 0 /\ v_2 z == 0 /\ (v_1 z == 1 \/ v_1 z == -1).
Proof.
  intros Hs. pose proof Hs as (_ & _ & _ & Ho).
  pose proof (argmax_lt_3 (vabs w)) as Hk.
  destruct (diag_has_m5 w V Hs) as (j & Hj & Hw).
  destruct (argmax_spec (vabs w)) as [Hmax _].
  specialize (Hmax j Hj). rewrite !item_vabs in Hmax. rewrite Hw in Hmax.
  destruct (diag_column_kind w V _ Hs Hk) as [K|[K|K]].
  - destruct K as (E & _). rewrite E in Hmax. exfalso. apply Hmax. reflexivity.
  - destruct K as (E & Hx & Hz). cbv zeta.
    split; [exact E |]. split; [exact Hx |]. split; [exact Hz |].
    pose proof (orthonormal_unit V _ Ho Hk) as N. unfold dot in N.
    rewrite Hx, Hz in N. apply square_one. lra.
  - destruct K as (E & _). rewrite E in Hmax. exfalso. apply Hmax. reflexivity.
Qed.

(** [eigh_diagonal] meets the contract of the eigensolver on every
    diagonal matrix. *)
Lemma eigh_diagonal_spec a b c : eigh_spec (diag a b c) (eigh_diagonal (diag a b c)).
Proof.
  unfold eigh_spec, eigh_diagonal, select_first, select_second, diag, diagonal.
  simpl.
  destruct (Qlt_le_dec b a); simpl;
    [destruct (Qlt_le_dec c b) | destruct (Qlt_le_dec c a)]; simpl;
    match goal with
    | |- context [Qlt_le_dec ?u ?v] => destruct (Qlt_le_dec u v)
    end; simpl;
    (split; [lra |]; split; [lra |]; split;
     [ intros k Hk; destruct k as [|[|[|k]]]; [| | | lia];
       unfold veq; simpl; unfold row_apply; simpl; repeat split; ring
     | unfold orthonormal, dot; simpl; repeat split; ring ]).
Qed.

Lemma eigh_diag_spec : eigh_spec diag_1_m5_3 (eigh_diagonal diag_1_m5_3).
Proof. exact (eigh_diagonal_spec 1 (-5) 3). Qed.

End Frame.

(** ** Claims on the Orientation Resolver *)

(** C1. On [diag_1_m5_3], for which LAPACK returns the eigenvectors in
    an order of determinant -1, the correction step negates [Y]: the
    axes are unit vectors orthogonal to one another, but
    [Z . (X x Y)] is -1, a left-handed frame. *)
Theorem negated_axis_left_handed :
  eigh_spec diag_1_m5_3 (eigh_diagonal diag_1_m5_3)
  /\ canonical_axes eigh_diagonal diag_1_m5_3
     = (V3 1 0 0, V3 0 0 1, V3 0 1 0)%Q
  /\ (triple (V3 1 0 0) (V3 0 0 1) (V3 0 1 0) == -1)%Q.
Proof.
  split; [exact eigh_diag_spec |].
  split; vm_compute; reflexivity.
Qed.

(** C2. The Z axis is the column of the eigenvalue of greatest
    magnitude, the first such column when several are equal in
    magnitude; and on [diag_1_m5_3], for every eigensolver result that
    meets the contract, it is the eigenvector of -5, along the second
    coordinate axis up to sign. *)
Theorem z_axis_greatest_magnitude (eigh : matrix -> vec3 * mat3) :
  (forall m, exists w V k,
      eigh m = (w, V) /\ (k < 3)%nat
      /\ snd (canonical_axes eigh m) = column V k
      /\ (forall j, (j < 3)%nat -> (Qabs (item w j) <= Qabs (item w k))%Q)
      /\ (forall j, (j < k)%nat -> (Qabs (item w j) < Qabs (item w k))%Q))
  /\ (eigh_spec diag_1_m5_3 (eigh diag_1_m5_3) ->
      let z := snd (canonical_axes eigh diag_1_m5_3) in
      (v_0 z == 0 /\ v_2 z == 0 /\ (v_1 z == 1 \/ v_1 z == -1))%Q).
Proof.
  split.
  - intros m.
    destruct (canonical_axes_eq eigh m)
      as (w & V & k & i & j & He & Hkd & _ & Hk & _ & _ & _ & _ & Hax).
    exists w, V, k. rewrite Hax. simpl.
    destruct (argmax_spec (vabs w)) as [H1 H2]. rewrite <- Hkd in H1, H2.
    repeat split; auto.
    + intros j' Hj'. specialize (H1 j' Hj'). rewrite !item_vabs in H1. exact H1.
    + intros j' Hj'. specialize (H2 j' Hj'). rewrite !item_vabs in H2. exact H2.
  - intros Hs.
    destruct (canonical_axes_eq eigh diag_1_m5_3)
      as (w & V & k & i & j & He & Hkd & _ & _ & _ & _ & _ & _ & Hax).
    rewrite Hax. simpl. rewrite He in Hs. subst k.
    destruct (diag_greatest_column w V Hs) as (_ & H). exact H.
Qed.

Lemma z_axis_greatest_magnitude_witness :
  (exists w V k,
      eigh_diagonal diag_1_m5_3 = (w, V) /\ (k < 3)%nat
      /\ snd (canonical_axes eigh_diagonal diag_1_m5_3) = column V k
      /\ (forall j, (j < 3)%nat -> (Qabs (item w j) <= Qabs (item w k))%Q)
      /\ (forall j, (j < k)%nat -> (Qabs (item w j) < Qabs (item w k))%Q))
  /\ (let z := snd (canonical_axes eigh_diagonal diag_1_m5_3) in
      (v_0 z == 0 /\ v_2 z == 0 /\ (v_1 z == 1 \/ v_1 z == -1))%Q).
Proof.
  destruct (z_axis_greatest_magnitude eigh_diagonal) as [H1 H2].
  split; [apply H1 | apply H2, eigh_diag_spec].
Defined.


(** The dictionary of a matrix that is present is never rendered as the
    sentinel. *)
Lemma present_not_NA (eigh : matrix -> vec3 * mat3) (M : matrix) :
  format_orientation_output (get_canonical_orientation eigh (Some M)) <> "N/A".
Proof.
  unfold get_canonical_orientation.
  destruct (canonical_axes eigh M) as [[x y] z].
  unfold format_orientation_output.
  rewrite bool_decide_eq_false_2 by (apply insert_non_empty).
  simpl.
  rewrite !bool_decide_eq_false_2; simpl.
  - rewrite lookup_total_insert_eq. unfold format_axis at 1. discriminate.
  - rewrite lookup_insert_ne by discriminate.
    rewrite lookup_insert_ne by discriminate.
    rewrite lookup_insert_eq. discriminate.
  - rewrite lookup_insert_ne by discriminate.
    rewrite lookup_insert_eq. discriminate.
  - rewrite lookup_insert_eq. discriminate.
Qed.

(** The scenario of the specification, as the code runs it. *)
Example scenario_orientation :
  extract_raw_efg_matrices scenario_text = Ok {[ 12 := sample_matrix ]}
  /\ eigh_diagonal sample_matrix
     = (V3 (-5) 1 2, M3 (V3 0 1 0) (V3 0 0 1) (V3 1 0 0))%Q
  /\ index_orientation eigh_diagonal {[ 12 := sample_matrix ]} 12 = sample_orientation_text.
Proof. repeat split; vm_compute; reflexivity. Qed.

(** C5. For an index that is not a key of the Block Locator's result,
    the lookup, the resolver and the formatter give the text [N/A], as
    a value and not as an exception; a matrix that is present is never
    rendered as [N/A]. *)
Theorem absent_index_gives_NA
    (eigh : matrix -> vec3 * mat3) (content : string) (m : gmap Z matrix) (idx : Z) :
  extract_raw_efg_matrices content = Ok m -> m !! idx = None ->
  index_orientation eigh m idx = "N/A"
  /\ get_canonical_orientation eigh (m !! idx) = ∅
  /\ (forall M, format_orientation_output (get_canonical_orientation eigh (Some M)) <> "N/A").
Proof.
  intros _ Hidx. unfold index_orientation. rewrite Hidx.
  split; [reflexivity |]. split; [reflexivity |].
  apply present_not_NA.
Qed.

Lemma absent_index_gives_NA_witness :
  index_orientation eigh_diagonal {[ 12 := sample_matrix ]} 13 = "N/A"
  /\ get_canonical_orientation eigh_diagonal
       (({[ 12 := sample_matrix ]} : gmap Z matrix) !! 13) = ∅
  /\ (forall M, format_orientation_output (get_canonical_orientation eigh_diagonal (Some M))
                <> "N/A").
Proof.
  apply (absent_index_gives_NA eigh_diagonal scenario_text {[ 12 := sample_matrix ]} 13).
  - vm_compute. reflexivity.
  - vm_compute. reflexivity.
Defined.

(** ** The two drivers and their index conventions *)

Lemma strip_prefix_semicolon_digit c s :
  Str.is_digit c = true -> Str.strip_prefix ";" (String c s) = None.
Proof. ascii_cases c. Qed.

Lemma contains_cons p c s :
  Str.contains p (String c s)
  = match Str.strip_prefix p (String c s) with
    | Some _ => true
    | None => Str.contains p s
    end.
Proof. reflexivity. Qed.

Lemma split_cons sep c s :
  Str.split sep (String c s)
  = if Ascii.eqb c sep then EmptyString :: Str.split sep s
    else match Str.split sep s with
         | [] => [String c EmptyString]
         | w :: ws => String c w :: ws
         end.
Proof. reflexivity. Qed.

Lemma is_digit_not_comma c : Str.is_digit c = true -> Ascii.eqb c "," = false.
Proof. ascii_cases c. Qed.


Lemma digits_split_comma s : Str.all_digits s = true -> Str.split "," s = [s].
Proof.
  induction s as [|c s IH]; [reflexivity |].
  intros H. simpl in H. apply andb_prop in H as [Hc Hs].
  rewrite split_cons, (is_digit_not_comma _ Hc), (IH Hs). reflexivity.
Qed.

Lemma index_cell_int s i : index_cell s i -> python_int s = Ok i.
Proof. intros (H1 & H2 & ->). apply python_int_digits; assumption. Qed.

Lemma index_cell_entry s i : index_cell s i -> entry_indices s = Ok [i].
Proof.
  intros H. pose proof H as (H1 & _). unfold entry_indices.
  rewrite (digits_split_comma _ H1). simpl.
  rewrite (index_cell_int _ _ H). reflexivity.
Qed.





(** ** The table written by [process_hydride_orientations_csv] *)


Lemma for_each_cons {A S} (body : A -> S -> result S) a l s :
  for_each body (a :: l) s = (s' ← body a s; for_each body l s').
Proof. reflexivity. Qed.

Section OrientationsTable.

Variable eigh : matrix -> vec3 * mat3.
Variable files : folder.
Variable orca_folder_path : string.















End OrientationsTable.




(** * Further properties *)

(** ** The Block Locator *)

(** What one iteration can do: the marker step, then either the tensor
    marker opens a section, or nothing more happens, or a row is
    collected, or the third row completes a matrix. *)
Lemma scan_line_cases st line st' :
  scan_line st line = Ok st' ->
  exists st1,
    scan_marker st line = Ok st1
    /\ (st' = ScanState (raw_efg_matrices st1) (current_nucleus st1) true []
        \/ st' = st1
        \/ (exists row,
              length (values_match line) = 3%nat
              /\ mapM_result python_float (values_match line) = Ok row
              /\ (st' = ScanState (raw_efg_matrices st1) (current_nucleus st1)
                          (efg_section st1) (efg_matrix_lines st1 ++ [row])
                  \/ st' = ScanState
                             (match current_nucleus st1 with
                              | Some n => <[n := (efg_matrix_lines st1 ++ [row])%list]>
                                            (raw_efg_matrices st1)
                              | None => raw_efg_matrices st1
                              end) None false []))).
Proof.
  unfold scan_line. destruct (scan_marker_returns st line) as [st1 Hst1].
  rewrite Hst1. rsimpl. intros H. exists st1. split; [reflexivity |].
  destruct (is_not_None (current_nucleus st1) && Str.contains "Raw EFG matrix" line).
  { inversion H. left. reflexivity. }
  unfold scan_collect in H.
  destruct (efg_section st1 && (length (efg_matrix_lines st1) <? 3)%nat) eqn:Ec.
  2:{ inversion H. right. left. reflexivity. }
  apply andb_prop in Ec as [_ Ec]. apply Nat.ltb_lt in Ec.
  destruct (Nat.eqb_spec (length (values_match line)) 3) as [E3|E3].
  - destruct (mapM_result python_float (values_match line)) as [row|] eqn:Er;
      rsimpl in H; [| discriminate].
    right. right. exists row. split; [exact E3 |]. split; [reflexivity |].
    destruct (length (efg_matrix_lines st1 ++ [row]) =? 3)%nat;
      inversion H; [right | left]; reflexivity.
  - rsimpl in H. destruct (Nat.eqb_spec (length (efg_matrix_lines st1)) 3); [lia |].
    inversion H. right. left. destruct st1; reflexivity.
Qed.

Lemma scan_marker_cases st line st1 :
  scan_marker st line = Ok st1 ->
  st1 = st
  \/ exists n, nucleus_marker line n
               /\ st1 = ScanState (raw_efg_matrices st) (Some n) false
                          (if efg_section st then [] else efg_matrix_lines st).
Proof.
  unfold scan_marker. destruct (nucleus_match line) as [g|] eqn:Eg.
  - destruct (python_int g) as [n|] eqn:En; rsimpl; [| discriminate].
    intros H; inversion H. right. exists n. split; [| reflexivity].
    unfold nucleus_marker, marker_index. rewrite Eg, En. reflexivity.
  - intros H; inversion H. left. reflexivity.
Qed.

Lemma row_of_lines_mono seen line row :
  row_of_lines seen row -> row_of_lines (seen ++ [line]) row.
Proof.
  intros (l & Hl & H). exists l. split; [apply in_or_app; left; exact Hl | exact H].
Qed.

Lemma scan_line_rows seen st line st' :
  scan_rows seen st -> scan_line st line = Ok st' -> scan_rows (seen ++ [line]) st'.
Proof.
  intros [R1 R2] H.
  destruct (scan_line_cases _ _ _ H) as (st1 & Hm & Hc).
  assert (scan_rows (seen ++ [line]) st1) as [P1 P2].
  { destruct (scan_marker_cases _ _ _ Hm) as [-> | (n & _ & ->)]; split; simpl.
    - intros k M row Hk Hr. eapply row_of_lines_mono, R1; eauto.
    - intros row Hr. apply row_of_lines_mono, R2, Hr.
    - intros k M row Hk Hr. eapply row_of_lines_mono, R1; eauto.
    - intros row Hr. destruct (efg_section st); [contradiction |].
      apply row_of_lines_mono, R2, Hr. }
  destruct Hc as [-> | [-> | (row & E3 & Er & Hc)]].
  - split; simpl; [exact P1 | contradiction].
  - split; assumption.
  - assert (row_of_lines (seen ++ [line]) row) as Hrow.
    { exists line. split; [apply in_or_app; right; left; reflexivity | auto]. }
    assert (forall r, In r (efg_matrix_lines st1 ++ [row]) ->
                      row_of_lines (seen ++ [line]) r) as Hall.
    { intros r Hr. apply in_app_or in Hr as [Hr | [<- | []]]; auto. }
    destruct Hc as [-> | ->]; split; simpl; try assumption; try contradiction.
    destruct (current_nucleus st1) as [n|]; [| exact P1].
    intros k M r Hk Hr. destruct (decide (n = k)) as [->|Hne].
    + rewrite lookup_insert_eq in Hk. inversion Hk; subst. apply Hall, Hr.
    + rewrite lookup_insert_ne in Hk by assumption. eapply P1; eauto.
Qed.

Lemma scan_lines_rows ls : forall seen st st',
  scan_rows seen st -> scan_lines st ls = Ok st' -> scan_rows (seen ++ ls) st'.
Proof.
  induction ls as [|line ls IH]; simpl; intros seen st st' R H.
  - inversion H; subst. rewrite app_nil_r. exact R.
  - destruct (scan_line st line) as [st1|] eqn:E; rsimpl in H; [| discriminate].
    replace (seen ++ line :: ls)%list with ((seen ++ [line]) ++ ls)%list
      by (rewrite <- app_assoc; reflexivity).
    eapply IH; [| exact H]. eapply scan_line_rows; eauto.
Qed.

Lemma marker_index_nonneg line k : marker_index line = Some k -> 0 <= k.
Proof.
  unfold marker_index. destruct (nucleus_match line) as [g|] eqn:Eg; [| discriminate].
  apply search_some in Eg as [t Ht]. apply nucleus_at_digits in Ht as [Hd Hne].
  rewrite (python_int_digits _ Hd Hne). intros H; inversion H. lia.
Qed.

(** X1. Every key of the mapping is the index of a line of the text on
    which the marker pattern matches, and is not negative. *)
Theorem locator_keys_from_marker_lines (content : string) (m : gmap Z matrix) (k : Z) :
  extract_raw_efg_matrices content = Ok m -> is_Some (m !! k) ->
  0 <= k
  /\ exists line, In line (Str.readlines content) /\ marker_index line = Some k.
Proof.
  intros H Hk. destruct (keys_from_markers _ _ _ H Hk) as (line & Hin & Hm).
  split; [eapply marker_index_nonneg, Hm |]. exists line. split; assumption.
Qed.

Lemma locator_keys_from_marker_lines_witness :
  0 <= 2
  /\ exists line, In line (Str.readlines overlap_text) /\ marker_index line = Some 2.
Proof.
  apply (locator_keys_from_marker_lines overlap_text {[ 2 := sample_matrix ]} 2).
  - vm_compute. reflexivity.
  - eexists. vm_compute. reflexivity.
Defined.

(** X2. Every stored matrix has three rows of three floats, and each
    of its rows is the three floats of one line of the text. *)
Theorem locator_matrices_from_lines (content : string) (m : gmap Z matrix) (k : Z) (M : matrix) :
  extract_raw_efg_matrices content = Ok m -> m !! k = Some M ->
  is_3x3 M /\ forall row, In row M -> row_of_lines (Str.readlines content) row.
Proof.
  intros H Hk. split; [eapply stored_matrices_3x3; eauto |].
  unfold extract_raw_efg_matrices in H.
  destruct (scan_lines scan_init (Str.readlines content)) as [st|] eqn:E; rsimpl in H;
    [| discriminate].
  inversion H; subst.
  assert (scan_rows ([] ++ Str.readlines content) st) as [R _].
  { eapply scan_lines_rows; [| exact E]. split; simpl.
    - intros k' M' row Hk'. rewrite lookup_empty in Hk'. discriminate.
    - contradiction. }
  intros row Hr. exact (R k M row Hk Hr).
Qed.

Lemma locator_matrices_from_lines_witness :
  is_3x3 sample_matrix
  /\ forall row, In row sample_matrix -> row_of_lines (Str.readlines overlap_text) row.
Proof.
  apply (locator_matrices_from_lines overlap_text {[ 2 := sample_matrix ]} 2).
  - vm_compute. reflexivity.
  - vm_compute. reflexivity.
Defined.

(** X3. A text without marker line, the empty text among them, gives
    the empty mapping, whatever tensor markers and numbers it holds. *)
Theorem locator_without_marker_is_empty (content : string) :
  Forall no_marker (Str.readlines content) ->
  extract_raw_efg_matrices content = Ok ∅.
Proof.
  intros H. unfold extract_raw_efg_matrices, scan_init.
  rewrite (scan_lines_idle _ _ _ H). reflexivity.
Qed.

Lemma locator_without_marker_is_empty_witness :
  extract_raw_efg_matrices
    (text_of_lines [" Nucleus   5C :"; " Raw EFG matrix"; " 1.0 0.0 0.0";
                    " 0.0 2.0 0.0"; " 0.0 0.0 -5.0"]) = Ok ∅
  /\ extract_raw_efg_matrices "" = Ok ∅.
Proof.
  split; apply locator_without_marker_is_empty.
  - vm_compute. repeat constructor.
  - constructor.
Defined.

(** X4. In every state the loop reaches, a section is only open for a
    current nucleus, fewer than three rows are waiting, and no row
    waits outside a section. *)
Theorem locator_reachable_states (ls : list string) (st : scan_state) :
  scan_lines scan_init ls = Ok st ->
  (efg_section st = true -> is_Some (current_nucleus st))
  /\ (length (efg_matrix_lines st) < 3)%nat
  /\ (efg_section st = false -> efg_matrix_lines st = []).
Proof.
  intros H. exact (scan_lines_wf _ _ _ scan_init_wf H).
Qed.

Lemma locator_reachable_states_witness :
  (efg_section waiting_state = true -> is_Some (current_nucleus waiting_state))
  /\ (length (efg_matrix_lines waiting_state) < 3)%nat
  /\ (efg_section waiting_state = false -> efg_matrix_lines waiting_state = []).
Proof.
  apply (locator_reachable_states
           [eol " Nucleus   1H :"; eol " Raw EFG matrix"; eol " 0.5 0.5 0.5"]).
  vm_compute. reflexivity.
Defined.

(** X5. A complete block is always recorded: whatever lines come before
    it, and whatever lines without a marker for its nucleus come after
    it, the result holds the matrix of the block under its nucleus. *)
Theorem locator_complete_block_recorded
    (content : string) (A : list string) (b : block) (C : list string)
    (n : Z) (M : matrix) :
  Str.readlines content = (A ++ block_lines b ++ C)%list ->
  complete_block b n M ->
  Forall (fun line => marker_index line <> Some n) C ->
  exists m, extract_raw_efg_matrices content = Ok m /\ m !! n = Some M.
Proof.
  intros Hl Hb HC.
  destruct (scan_lines_returns A scan_init) as [stA HA].
  destruct (scan_lines_returns C
              (ScanState (<[n := M]> (raw_efg_matrices stA)) None false []))
    as [stC HCs].
  exists (raw_efg_matrices stC). split.
  - unfold extract_raw_efg_matrices. rewrite Hl.
    erewrite scan_lines_app by exact HA.
    erewrite scan_lines_app by (apply scan_lines_block, Hb).
    rewrite HCs. reflexivity.
  - erewrite scan_lines_frame; [| exact HC | | exact HCs]; simpl;
      [apply lookup_insert_eq | discriminate].
Qed.

Lemma locator_complete_block_recorded_witness :
  exists m, extract_raw_efg_matrices orphan_text = Ok m /\ m !! 4 = Some sample_matrix.
Proof.
  apply (locator_complete_block_recorded orphan_text
           [eol " junk 1.0 2.0 3.0"; eol " Raw EFG matrix"] orphan_block
           [eol " 9.0 9.0 9.0"] 4 sample_matrix).
  - vm_compute. reflexivity.
  - unfold complete_block, raw_marker, skipped, data_row, plain.
    repeat split; try (repeat constructor; vm_compute; congruence).
    exists [1; 0; 0]%Q, [0; 2; 0]%Q, [0; 0; -5]%Q.
    repeat split; vm_compute; reflexivity.
  - repeat constructor. vm_compute. congruence.
Defined.

(** ** The scalar extractor *)

Lemma eq_scan_lines_cons st line st1 rest :
  EqQ.scan_line st line = Ok st1 ->
  EqQ.scan_lines st (line :: rest) = EqQ.scan_lines st1 rest.
Proof. intros H. simpl. rewrite H. reflexivity. Qed.

Lemma eq_scan_lines_app l1 l2 : forall st st1,
  EqQ.scan_lines st l1 = Ok st1 ->
  EqQ.scan_lines st (l1 ++ l2) = EqQ.scan_lines st1 l2.
Proof.
  induction l1 as [|line l1 IH]; simpl; intros st st1 H.
  - inversion H. reflexivity.
  - destruct (EqQ.scan_line st line) as [st'|] eqn:E; [| discriminate].
    rsimpl. rsimpl in H. apply IH, H.
Qed.

Lemma eq_scan_marker_none st line :
  nucleus_match line = None -> EqQ.scan_marker st line = Ok st.
Proof. unfold EqQ.scan_marker. intros ->. reflexivity. Qed.

(** Without current nucleus, a line without marker does nothing. *)
Lemma eq_scan_line_idle m q line :
  nucleus_match line = None ->
  EqQ.scan_line (EqQ.ScanState m None q) line = Ok (EqQ.ScanState m None q).
Proof.
  intros H. unfold EqQ.scan_line. rewrite (eq_scan_marker_none _ _ H). reflexivity.
Qed.

Lemma eq_scan_lines_idle m q ls :
  Forall no_marker ls ->
  EqQ.scan_lines (EqQ.ScanState m None q) ls = Ok (EqQ.ScanState m None q).
Proof.
  induction 1 as [|line ls H _ IH]; [reflexivity |].
  rewrite (eq_scan_lines_cons _ _ _ _ (eq_scan_line_idle m q line H)). exact IH.
Qed.

(** A marker line sets the nucleus and forgets the coupling constant. *)
Lemma eq_scan_line_marker st line n :
  eq_marker line n ->
  EqQ.scan_line st line = Ok (EqQ.ScanState (EqQ.efg_values st) (Some n) None).
Proof.
  intros (Hm & Hq & He). apply nucleus_marker_inv in Hm as (g & Hg & Hn).
  unfold EqQ.scan_line, EqQ.scan_marker. rewrite Hg. rsimpl. rewrite Hn. rsimpl.
  unfold EqQ.scan_eqQ. rewrite Hq. rsimpl.
  unfold EqQ.scan_eta. rewrite He. reflexivity.
Qed.

(** Before the coupling constant is read, an asymmetry parameter is
    passed over. *)
Lemma eq_scan_line_early m n line :
  eq_no_eqQ line ->
  EqQ.scan_line (EqQ.ScanState m (Some n) None) line = Ok (EqQ.ScanState m (Some n) None).
Proof.
  intros (Hn & Hq). unfold EqQ.scan_line. rewrite (eq_scan_marker_none _ _ Hn). rsimpl.
  unfold EqQ.scan_eqQ. rewrite Hq. rsimpl.
  unfold EqQ.scan_eta. simpl. destruct (EqQ.eta_match line); reflexivity.
Qed.

Lemma eq_scan_lines_early m n ls :
  Forall eq_no_eqQ ls ->
  EqQ.scan_lines (EqQ.ScanState m (Some n) None) ls = Ok (EqQ.ScanState m (Some n) None).
Proof.
  induction 1 as [|line ls H _ IH]; [reflexivity |].
  rewrite (eq_scan_lines_cons _ _ _ _ (eq_scan_line_early m n line H)). exact IH.
Qed.

Lemma eq_scan_line_quiet st line :
  eq_quiet line -> EqQ.scan_line st line = Ok st.
Proof.
  intros (Hn & Hq & He). unfold EqQ.scan_line. rewrite (eq_scan_marker_none _ _ Hn). rsimpl.
  destruct (EqQ.current_nucleus st); [| reflexivity].
  unfold EqQ.scan_eqQ. rewrite Hq. rsimpl.
  unfold EqQ.scan_eta. rewrite He. reflexivity.
Qed.

Lemma eq_scan_lines_quiet st ls :
  Forall eq_quiet ls -> EqQ.scan_lines st ls = Ok st.
Proof.
  induction 1 as [|line ls H _ IH]; [reflexivity |].
  rewrite (eq_scan_lines_cons _ _ _ _ (eq_scan_line_quiet st line H)). exact IH.
Qed.

(** The coupling constant is kept as its absolute value. *)
Lemma eq_scan_line_eqQ m n old line q :
  eqQ_line line q ->
  EqQ.scan_line (EqQ.ScanState m (Some n) old) line
  = Ok (EqQ.ScanState m (Some n) (Some (Qabs q))).
Proof.
  intros (Hn & He & g & Hg & Hq). unfold EqQ.scan_line.
  rewrite (eq_scan_marker_none _ _ Hn). rsimpl.
  unfold EqQ.scan_eqQ. rewrite Hg. rsimpl. rewrite Hq. rsimpl.
  unfold EqQ.scan_eta. rewrite He. reflexivity.
Qed.

(** The asymmetry parameter completes the record. *)
Lemma eq_scan_line_eta m n v line e :
  eta_line line e ->
  EqQ.scan_line (EqQ.ScanState m (Some n) (Some v)) line
  = Ok (EqQ.ScanState (<[n := (v, e)]> m) None None).
Proof.
  intros (Hn & Hq & g & Hg & He). unfold EqQ.scan_line.
  rewrite (eq_scan_marker_none _ _ Hn). rsimpl.
  unfold EqQ.scan_eqQ. rewrite Hq. rsimpl.
  unfold EqQ.scan_eta. rewrite Hg. simpl. rsimpl. rewrite He. reflexivity.
Qed.

(** X6. A record of the scalar extractor: after the marker of nucleus
    [n], lines without coupling constant (an asymmetry parameter among
    them is passed over), the line of the coupling constant [q], quiet
    lines, and the line of the asymmetry parameter [e]. With no marker
    before or after, the result is exactly [{n: (|q|, e)}]. *)
Theorem eqQ_record_extracted
    (content : string) (A : list string) (mk : string) (F1 : list string)
    (lq : string) (F2 : list string) (le : string) (C : list string)
    (n : Z) (q e : Q) :
  Str.readlines content = (A ++ mk :: F1 ++ lq :: F2 ++ le :: C)%list ->
  Forall no_marker A -> eq_marker mk n -> Forall eq_no_eqQ F1 -> eqQ_line lq q ->
  Forall eq_quiet F2 -> eta_line le e -> Forall no_marker C ->
  EqQ.extract_eqQ_and_eta_values content = Ok {[ n := (Qabs q, e) ]}.
Proof.
  intros Hl HA Hmk HF1 Hlq HF2 Hle HC.
  unfold EqQ.extract_eqQ_and_eta_values, EqQ.scan_init. rewrite Hl.
  erewrite eq_scan_lines_app by (apply eq_scan_lines_idle, HA).
  rewrite (eq_scan_lines_cons _ _ _ _ (eq_scan_line_marker _ _ n Hmk)). simpl.
  erewrite eq_scan_lines_app by (apply eq_scan_lines_early, HF1).
  rewrite (eq_scan_lines_cons _ _ _ _ (eq_scan_line_eqQ _ n _ _ q Hlq)).
  erewrite eq_scan_lines_app by (apply eq_scan_lines_quiet, HF2).
  rewrite (eq_scan_lines_cons _ _ _ _ (eq_scan_line_eta _ n _ _ e Hle)).
  rewrite (eq_scan_lines_idle _ _ _ HC). reflexivity.
Qed.

Lemma eqQ_record_extracted_witness :
  EqQ.extract_eqQ_and_eta_values record_text = Ok {[ 7 := (Qabs (- (1 # 4)), 1 # 2)%Q ]}.
Proof.
  apply (eqQ_record_extracted record_text
           [eol " e**2qQ            =     9.000 MHz"]
           (eol " Nucleus   7H : A:ISTP=    1")
           [eol " eta               =     0.900"]
           (eol " e**2qQ            =    -0.250 MHz")
           [eol " -----"]
           (eol " eta               =     0.500")
           [eol " e**2qQ            =     8.000 MHz"; eol " eta               =     0.800"]
           7 (- (1 # 4))%Q (1 # 2)%Q).
  - vm_compute. reflexivity.
  - repeat constructor.
  - repeat split; vm_compute; reflexivity.
  - repeat constructor; vm_compute; reflexivity.
  - split; [vm_compute; reflexivity |]. split; [vm_compute; reflexivity |].
    eexists. split; vm_compute; reflexivity.
  - repeat constructor; vm_compute; reflexivity.
  - split; [vm_compute; reflexivity |]. split; [vm_compute; reflexivity |].
    eexists. split; vm_compute; reflexivity.
  - repeat constructor.
Defined.

(** X7. Unlike the Block Locator, the scalar extractor raises: when,
    under a marker and before any other coupling constant, a line
    matches the coupling-constant pattern with a group that is no
    number, the extraction raises [ValueError] and returns no mapping. *)
Theorem eqQ_bad_number_raises
    (content : string) (A : list string) (mk : string) (F1 : list string)
    (bad : string) (C : list string) (n : Z) :
  Str.readlines content = (A ++ mk :: F1 ++ bad :: C)%list ->
  Forall no_marker A -> eq_marker mk n -> Forall eq_no_eqQ F1 -> eqQ_bad_line bad ->
  EqQ.extract_eqQ_and_eta_values content = Raise ValueError.
Proof.
  intros Hl HA Hmk HF1 (Hn & g & Hg & Hq).
  unfold EqQ.extract_eqQ_and_eta_values, EqQ.scan_init. rewrite Hl.
  erewrite eq_scan_lines_app by (apply eq_scan_lines_idle, HA).
  rewrite (eq_scan_lines_cons _ _ _ _ (eq_scan_line_marker _ _ n Hmk)). simpl.
  erewrite eq_scan_lines_app by (apply eq_scan_lines_early, HF1).
  simpl. unfold EqQ.scan_line at 1. rewrite (eq_scan_marker_none _ _ Hn). rsimpl.
  unfold EqQ.scan_eqQ. rewrite Hg. rsimpl. rewrite Hq. reflexivity.
Qed.

Lemma eqQ_bad_number_raises_witness :
  EqQ.extract_eqQ_and_eta_values bad_number_text = Raise ValueError.
Proof.
  apply (eqQ_bad_number_raises bad_number_text []
           (eol " Nucleus   7H : A:ISTP=    1") []
           (eol " e**2qQ            =    -.- MHz")
           [eol " eta               =     0.500"] 7).
  - vm_compute. reflexivity.
  - constructor.
  - repeat split; vm_compute; reflexivity.
  - constructor.
  - split; [vm_compute; reflexivity |]. eexists. split; vm_compute; reflexivity.
Defined.

Lemma eq_inv_mono seen line st : eq_inv seen st -> eq_inv (seen ++ [line]) st.
Proof.
  intros (I1 & I2 & I3). split; [| split].
  - intros k v Hk. destruct (I1 k v Hk) as (Hv & l & Hl & Hm).
    split; [exact Hv |]. exists l. split; [apply in_or_app; left; exact Hl | exact Hm].
  - exact I2.
  - intros n Hn. destruct (I3 n Hn) as (l & Hl & Hm).
    exists l. split; [apply in_or_app; left; exact Hl | exact Hm].
Qed.

Lemma eq_scan_line_inv seen st line st' :
  eq_inv seen st -> EqQ.scan_line st line = Ok st' -> eq_inv (seen ++ [line]) st'.
Proof.
  intros I. apply (eq_inv_mono seen line) in I.
  unfold EqQ.scan_line, EqQ.scan_marker.
  assert (forall st1,
    eq_inv (seen ++ [line]) st1 ->
    match EqQ.current_nucleus st1 with
    | Some n => st2 ← EqQ.scan_eqQ st1 line; EqQ.scan_eta n st2 line
    | None => Ok st1
    end = Ok st' -> eq_inv (seen ++ [line]) st') as Hrest.
  { intros st1 (J1 & J2 & J3).
    destruct (EqQ.current_nucleus st1) as [n|] eqn:En.
    2:{ intros H; inversion H; subst. split; [| split].
        - exact J1.
        - exact J2.
        - intros n Hn. congruence. }
    unfold EqQ.scan_eqQ.
    assert (forall st2,
      EqQ.efg_values st2 = EqQ.efg_values st1 ->
      (forall q, EqQ.current_eqQ st2 = Some q -> (0 <= q)%Q) ->
      EqQ.current_nucleus st2 = Some n ->
      EqQ.scan_eta n st2 line = Ok st' -> eq_inv (seen ++ [line]) st') as Heta.
    { intros st2 Em Eq Ec. unfold EqQ.scan_eta.
      destruct (EqQ.eta_match line) as [g|].
      2:{ intros H; inversion H; subst. split; [| split].
          - rewrite Em. exact J1.
          - intros q Hq. first [apply Eq; exact Hq | congruence].
          - intros n' Hn'. apply J3. congruence. }
      destruct (EqQ.current_eqQ st2) as [v|] eqn:Ev.
      2:{ intros H; inversion H; subst. split; [| split].
          - rewrite Em. exact J1.
          - intros q Hq. first [apply Eq; exact Hq | congruence].
          - intros n' Hn'. apply J3. congruence. }
      destruct (python_float g) as [e|]; rsimpl; [| discriminate].
      intros H; inversion H; subst. split; [| split]; simpl.
      - intros k w Hk. destruct (decide (n = k)) as [->|Hne].
        + rewrite lookup_insert_eq in Hk. inversion Hk; subst. simpl.
          split; [apply Eq; reflexivity | apply J3; reflexivity].
        + rewrite lookup_insert_ne in Hk by assumption. rewrite Em in Hk.
          apply J1, Hk.
      - discriminate.
      - discriminate. }
    destruct (EqQ.eqQ_match line) as [g|].
    - destruct (python_float g) as [v|]; rsimpl; [| discriminate].
      apply Heta; simpl; [reflexivity | | exact En].
      intros q Hq. inversion Hq. apply Qabs_nonneg.
    - rsimpl. apply Heta; [reflexivity | exact J2 | exact En]. }
  destruct (nucleus_match line) as [g|] eqn:Eg.
  - destruct (python_int g) as [n|] eqn:En; rsimpl; [| discriminate].
    intros H.
    apply (Hrest (EqQ.ScanState (EqQ.efg_values st) (Some n) None)); [| exact H].
    destruct I as (I1 & I2 & I3). split; [| split]; simpl.
    + exact I1.
    + discriminate.
    + intros n' Hn'. inversion Hn'; subst. exists line.
      split; [apply in_or_app; right; left; reflexivity |].
      unfold marker_index. rewrite Eg, En. reflexivity.
  - intros H. apply (Hrest st I). exact H.
Qed.

Lemma eq_scan_lines_inv ls : forall seen st st',
  eq_inv seen st -> EqQ.scan_lines st ls = Ok st' -> eq_inv (seen ++ ls) st'.
Proof.
  induction ls as [|line ls IH]; simpl; intros seen st st' I H.
  - inversion H; subst. rewrite app_nil_r. exact I.
  - destruct (EqQ.scan_line st line) as [st1|] eqn:E; rsimpl in H; [| discriminate].
    replace (seen ++ line :: ls)%list with ((seen ++ [line]) ++ ls)%list
      by (rewrite <- app_assoc; reflexivity).
    eapply IH; [| exact H]. eapply eq_scan_line_inv; eauto.
Qed.

Lemma eqQ_values_and_keys_aux content m k v :
  EqQ.extract_eqQ_and_eta_values content = Ok m -> m !! k = Some v ->
  0 <= k /\ (0 <= fst v)%Q
  /\ exists line, In line (Str.readlines content) /\ marker_index line = Some k.
Proof.
  unfold EqQ.extract_eqQ_and_eta_values.
  destruct (EqQ.scan_lines EqQ.scan_init (Str.readlines content)) as [st|] eqn:E; rsimpl;
    [| discriminate].
  intros H Hk. inversion H; subst.
  assert (eq_inv ([] ++ Str.readlines content) st) as (I1 & _ & _).
  { eapply eq_scan_lines_inv; [| exact E]. split; [| split]; simpl.
    - intros k' v' Hk'. rewrite lookup_empty in Hk'. discriminate.
    - discriminate.
    - discriminate. }
  destruct (I1 k v Hk) as (Hv & line & Hl & Hm).
  split; [eapply marker_index_nonneg, Hm |]. split; [exact Hv |].
  exists line. split; assumption.
Qed.

(** X8. Whenever the scalar extractor returns, every coupling constant
    it stored is not negative, and every key is the index of a line of
    the text on which the marker pattern matches, hence not negative. *)
Theorem eqQ_values_and_keys
    (content : string) (m : gmap Z (Q * Q)) (k : Z) (v : Q * Q) :
  EqQ.extract_eqQ_and_eta_values content = Ok m -> m !! k = Some v ->
  (0 <= fst v)%Q /\ 0 <= k
  /\ exists line, In line (Str.readlines content) /\ marker_index line = Some k.
Proof.
  intros H Hk. destruct (eqQ_values_and_keys_aux content m k v H Hk) as (H1 & H2 & H3).
  auto.
Qed.

Lemma eqQ_values_and_keys_witness :
  (0 <= fst (1 # 4, 1 # 2)%Q)%Q /\ 0 <= 7
  /\ exists line, In line (Str.readlines record_text) /\ marker_index line = Some 7.
Proof.
  apply (eqQ_values_and_keys record_text {[ 7 := (1 # 4, 1 # 2)%Q ]} 7).
  - vm_compute. reflexivity.
  - vm_compute. reflexivity.
Defined.

(** ** The Orientation Resolver *)

Section FrameMore.

#[local] Open Scope Q_scope.








End FrameMore.





(** X12. The formatter answers [N/A] exactly when one of the keys [X],
    [Y], [Z] is missing; other keys and the lengths of the lists do not
    matter. *)
Theorem format_NA_iff_key_missing (orientation_dict : gmap string (list Q)) :
  format_orientation_output orientation_dict = "N/A"
  <-> (orientation_dict !! "X" = None \/ orientation_dict !! "Y" = None
       \/ orientation_dict !! "Z" = None).
Proof.
  unfold format_orientation_output. simpl.
  destruct (bool_decide (orientation_dict = ∅)) eqn:Ee.
  { apply bool_decide_eq_true_1 in Ee. subst. simpl.
    split; [intros _; left; apply lookup_empty | reflexivity]. }
  simpl.
  destruct (bool_decide (orientation_dict !! "X" = None)) eqn:Ex.
  { apply bool_decide_eq_true_1 in Ex. simpl. split; [auto | reflexivity]. }
  destruct (bool_decide (orientation_dict !! "Y" = None)) eqn:Ey.
  { apply bool_decide_eq_true_1 in Ey. simpl. split; [auto | reflexivity]. }
  destruct (bool_decide (orientation_dict !! "Z" = None)) eqn:Ez.
  { apply bool_decide_eq_true_1 in Ez. simpl. split; [auto | reflexivity]. }
  apply bool_decide_eq_false_1 in Ex, Ey, Ez. simpl.
  split; [| tauto]. unfold format_axis at 1. discriminate.
Qed.

(** ** The driver [process_hydride_csv] *)

(** A loop over the rows whose body changes the row it is at. *)
Lemma for_each_rows
    (body : nat * gmap string cell -> DataFrame -> result DataFrame)
    (upd : gmap string cell -> gmap string cell -> gmap string cell)
    (P : gmap string cell -> Prop) :
  (forall idx row out, P row ->
     body (idx, row) out = Ok (Frame (columns out) (alter (upd row) idx (rows out)))) ->
  forall rs s out, Forall P rs ->
  exists out',
    for_each body (zip (seq s (length rs)) rs) out = Ok out'
    /\ columns out' = columns out
    /\ length (rows out') = length (rows out)
    /\ (forall j, (j < s)%nat -> rows out' !! j = rows out !! j)
    /\ forall i row, rs !! i = Some row ->
         rows out' !! (s + i)%nat = upd row <$> rows out !! (s + i)%nat.
Proof.
  intros Hbody. induction rs as [|r rs IH]; intros s out Hok.
  - exists out. repeat split; auto. intros i row H. discriminate.
  - inversion Hok as [|? ? Hr Hrs]; subst.
    change (zip (seq s (length (r :: rs))) (r :: rs))
      with ((s, r) :: zip (seq (S s) (length rs)) rs).
    rewrite for_each_cons, (Hbody _ _ _ Hr). rsimpl.
    destruct (IH (S s) (Frame (columns out) (alter (upd r) s (rows out))) Hrs)
      as (out' & Hout & Hcols & Hlen & Hbefore & Hrows).
    exists out'. split; [exact Hout |]. split; [exact Hcols |].
    split; [rewrite Hlen; simpl; apply length_alter |].
    split.
    { intros j Hj. rewrite Hbefore by lia. simpl.
      apply list_lookup_alter_ne. lia. }
    intros i row Hi. destruct i as [|i]; simpl in Hi.
    + inversion Hi; subst row. rewrite Nat.add_0_r.
      rewrite Hbefore by lia. simpl. apply list_lookup_alter_eq.
    + replace (s + S i)%nat with (S s + i)%nat by lia.
      rewrite (Hrows i row Hi). simpl.
      rewrite list_lookup_alter_ne by lia. reflexivity.
Qed.

Lemma frame_alter_id (out : DataFrame) idx :
  Frame (columns out) (alter (fun acc : gmap string cell => acc) idx (rows out)) = out.
Proof. rewrite list_alter_id by reflexivity. destruct out; reflexivity. Qed.

Section CsvTable.

Variable files : folder.
Variable orca_folder_path : string.
Variable include_eta : bool.

Lemma csv_cols_loop m idx row cols : forall out,
  (forall col, In col cols ->
     is_Some (row !! col)
     /\ forall raw, row !! col = Some (Text raw) ->
          returns (HydrideCsv.cell_text (HydrideCsv.with_eta include_eta col) m raw)) ->
  for_each (HydrideCsv.col_body include_eta m idx row) cols out
  = Ok (Frame (columns out)
          (alter (fun acc => fold_left (csv_col_update include_eta m row) cols acc)
             idx (rows out))).
Proof.
  induction cols as [|col cols IH]; intros out Hs.
  - simpl. rewrite frame_alter_id. reflexivity.
  - assert (HydrideCsv.col_body include_eta m idx row col out
            = Ok (Frame (columns out)
                    (alter (fun acc => csv_col_update include_eta m row acc col)
                       idx (rows out)))) as Hhead.
    { destruct (Hs col (or_introl eq_refl)) as [[c Hc] Hr].
      unfold HydrideCsv.col_body, getitem, csv_col_update, csv_new_cell.
      rewrite Hc. rsimpl. destruct c as [|raw].
      - rewrite frame_alter_id. reflexivity.
      - destruct (Hr raw Hc) as [text ->]. reflexivity. }
    rewrite for_each_cons, Hhead. rsimpl.
    rewrite IH by (intros c' H'; apply Hs; right; exact H'). simpl.
    rewrite list_alter_alter_eq. reflexivity.
Qed.

Lemma csv_row_loop_body idx row out :
  csv_row_ok files orca_folder_path include_eta row ->
  HydrideCsv.row_body files orca_folder_path include_eta (idx, row) out
  = Ok (Frame (columns out)
          (alter (csv_row_update files orca_folder_path include_eta row) idx (rows out))).
Proof.
  intros ([c Hc] & Hr). unfold HydrideCsv.row_body, getitem, csv_row_update, csv_row_values.
  rewrite Hc. rsimpl.
  destruct c as [|fname]; [rewrite frame_alter_id; reflexivity |].
  destruct (files !! orca_path orca_folder_path fname) as [content|] eqn:Ef;
    [| rewrite frame_alter_id; reflexivity].
  destruct (Hr fname content Hc Ef) as (m & Hm & Hcols).
  rewrite Hm. exact (csv_cols_loop m idx row _ out Hcols).
Qed.

Lemma csv_col_update_other m row cols : forall acc k,
  ~ In k cols ->
  fold_left (csv_col_update include_eta m row) cols acc !! k = acc !! k.
Proof.
  induction cols as [|c cols IH]; intros acc k Hk; [reflexivity |].
  simpl in *. rewrite IH by tauto. unfold csv_col_update.
  destruct (csv_new_cell include_eta m row c); [| reflexivity].
  apply lookup_insert_ne. tauto.
Qed.

Lemma csv_col_update_new m row cols : forall acc c,
  NoDup cols -> In c cols ->
  fold_left (csv_col_update include_eta m row) cols acc !! c
  = match csv_new_cell include_eta m row c with
    | Some v => Some v
    | None => acc !! c
    end.
Proof.
  induction cols as [|c0 cols IH]; intros acc c Hnd Hin; [contradiction |].
  apply NoDup_cons in Hnd as [Hfresh Hnd]. rewrite list_elem_of_In in Hfresh. simpl.
  destruct (in_dec string_dec c cols) as [Hc|Hc].
  - rewrite (IH _ c Hnd Hc).
    assert (c0 <> c) as Hne by (intros ->; contradiction).
    destruct (csv_new_cell include_eta m row c); [reflexivity |].
    unfold csv_col_update. destruct (csv_new_cell include_eta m row c0); [| reflexivity].
    apply lookup_insert_ne, Hne.
  - destruct Hin as [-> | Hin]; [| contradiction].
    rewrite csv_col_update_other by exact Hfresh.
    unfold csv_col_update. destruct (csv_new_cell include_eta m row c); [| reflexivity].
    apply lookup_insert_eq.
Qed.

Lemma hydride_cols_NoDup : NoDup HydrideCsv.hydride_cols.
Proof.
  unfold HydrideCsv.hydride_cols.
  repeat (apply NoDup_cons_2;
          [intros H; apply list_elem_of_In in H; simpl in H;
           repeat (destruct H as [H | H]; [discriminate H |]); exact H |]).
  apply NoDup_nil_2.
Qed.

(** X13. On a table whose rows can be processed, [process_hydride_csv]
    returns a table with the same columns and as many rows; every cell
    outside the four hydride columns is unchanged; in a row whose ORCA
    file exists a hydride cell that holds text is overwritten with its
    values and a missing cell is left alone; a row without file name or
    without ORCA file is unchanged. *)
Theorem hydride_csv_frame (df_in : DataFrame) :
  Forall (csv_row_ok files orca_folder_path include_eta) (rows df_in) ->
  exists df_out,
    HydrideCsv.process_hydride_csv df_in files orca_folder_path include_eta = Ok df_out
    /\ columns df_out = columns df_in
    /\ length (rows df_out) = length (rows df_in)
    /\ forall idx row, rows df_in !! idx = Some row ->
         exists row', rows df_out !! idx = Some row'
           /\ (forall col, ~ In col HydrideCsv.hydride_cols -> row' !! col = row !! col)
           /\ (forall col, In col HydrideCsv.hydride_cols ->
                 row' !! col = csv_expected files orca_folder_path include_eta row col)
           /\ (csv_row_values files orca_folder_path row = None -> row' = row).
Proof.
  intros Hok. unfold HydrideCsv.process_hydride_csv, iterrows.
  destruct (for_each_rows
              (HydrideCsv.row_body files orca_folder_path include_eta)
              (csv_row_update files orca_folder_path include_eta)
              (csv_row_ok files orca_folder_path include_eta)
              (fun idx row out H => csv_row_loop_body idx row out H)
              (rows df_in) 0%nat df_in Hok)
    as (out & Hout & Hcols & Hlen & _ & Hrows).
  exists out. split; [exact Hout |]. split; [exact Hcols |]. split; [exact Hlen |].
  intros idx row Hrow. specialize (Hrows idx row Hrow). simpl in Hrows.
  rewrite Hrow in Hrows. simpl in Hrows.
  eexists. split; [exact Hrows |].
  unfold csv_row_update, csv_expected.
  destruct (csv_row_values files orca_folder_path row) as [m|].
  - split; [| split].
    + intros col Hcol. apply csv_col_update_other, Hcol.
    + intros col Hcol. apply csv_col_update_new; [apply hydride_cols_NoDup | exact Hcol].
    + discriminate.
  - repeat split; reflexivity.
Qed.

End CsvTable.

Lemma csv_table_rows_ok :
  Forall (csv_row_ok two_nuclei_folder "data_EFG" true) (rows csv_table).
Proof.
  repeat constructor.
  - eexists. vm_compute. reflexivity.
  - intros fname content Hf Hc. vm_compute in Hf. inversion Hf; subst.
    vm_compute in Hc. inversion Hc; subst.
    eexists. split; [vm_compute; reflexivity |].
    intros col Hin. simpl in Hin.
    repeat (destruct Hin as [<- | Hin];
            [split; [eexists; vm_compute; reflexivity |];
             intros raw Hraw; vm_compute in Hraw; inversion Hraw; subst;
             eexists; vm_compute; reflexivity |]).
    contradiction.
  - eexists. vm_compute. reflexivity.
  - intros fname content Hf Hc. vm_compute in Hf. inversion Hf; subst.
    vm_compute in Hc. discriminate.
Qed.

Lemma hydride_csv_frame_witness :
  exists df_out,
    HydrideCsv.process_hydride_csv csv_table two_nuclei_folder "data_EFG" true = Ok df_out
    /\ columns df_out = columns csv_table
    /\ length (rows df_out) = length (rows csv_table)
    /\ forall idx row, rows csv_table !! idx = Some row ->
         exists row', rows df_out !! idx = Some row'
           /\ (forall col, ~ In col HydrideCsv.hydride_cols -> row' !! col = row !! col)
           /\ (forall col, In col HydrideCsv.hydride_cols ->
                 row' !! col = csv_expected two_nuclei_folder "data_EFG" true row col)
           /\ (csv_row_values two_nuclei_folder "data_EFG" row = None -> row' = row).
Proof.
  apply (hydride_csv_frame two_nuclei_folder "data_EFG" true csv_table).
  exact csv_table_rows_ok.
Defined.

(** The table of the witness, as the driver writes it. *)
Example hydride_csv_frame_cells :
  result_cell (HydrideCsv.process_hydride_csv csv_table two_nuclei_folder "data_EFG" true)
    "Hydrides - mu1H" = Some (Text "0.250000;0.750000")
  /\ result_cell (HydrideCsv.process_hydride_csv csv_table two_nuclei_folder "data_EFG" true)
       "Hydrides - mu2H" = Some (Text "(0.250000,0.500000),(0.750000,0.125000)")
  /\ result_cell (HydrideCsv.process_hydride_csv csv_table two_nuclei_folder "data_EFG" true)
       "Comment" = Some (Text "1,2").
Proof. repeat split; vm_compute; reflexivity. Qed.

(** ** Cells and indices *)

Lemma mapM_result_only {A B} (f : A -> result B) (E : exn) l e :
  (forall x e', f x = Raise e' -> e' = E) -> mapM_result f l = Raise e -> e = E.
Proof.
  intros Hf. induction l as [|x l IH]; simpl; [discriminate |].
  destruct (f x) as [b|e'] eqn:Ex.
  - destruct (mapM_result f l) as [bs|e'']; [discriminate |].
    intros H; inversion H; subst. apply IH. reflexivity.
  - intros H; inversion H; subst. eapply Hf, Ex.
Qed.

Lemma mapM_result_raises {A B} (f : A -> result B) (E : exn) l a :
  (forall x e', f x = Raise e' -> e' = E) -> In a l -> f a = Raise E ->
  mapM_result f l = Raise E.
Proof.
  intros Hf. induction l as [|x l IH]; simpl; [contradiction |].
  intros Hin Ha. destruct (f x) as [b|e'] eqn:Ex.
  - destruct Hin as [-> | Hin]; [congruence |].
    rewrite (IH Hin Ha). reflexivity.
  - rewrite (Hf x e' Ex). reflexivity.
Qed.

Lemma python_int_only_ValueError s e : python_int s = Raise e -> e = ValueError.
Proof.
  unfold python_int. destruct (split_sign (Str.strip s)) as [sgn body].
  destruct (int_body 0 false body); [discriminate |].
  intros H; inversion H. reflexivity.
Qed.

Lemma out_entry_only_ValueError eta m ent e :
  HydrideCsv.out_entry eta m ent = Raise e -> e = ValueError.
Proof.
  unfold HydrideCsv.out_entry, entry_indices.
  destruct (mapM_result python_int (Str.split "," ent)) as [idxs|e'] eqn:E; rsimpl;
    [discriminate |].
  intros H; inversion H; subst.
  eapply mapM_result_only; [| exact E]. apply python_int_only_ValueError.
Qed.

Lemma is_digit_not_semicolon_l c : Str.is_digit c = true -> Ascii.eqb c ";" = false.
Proof. ascii_cases c. Qed.

Lemma digits_split_trailing s :
  Str.all_digits s = true -> Str.split ";" (s ++ ";") = [s; ""].
Proof.
  induction s as [|c s IH]; [reflexivity |].
  intros H. simpl in H. apply andb_prop in H as [Hc Hs].
  rewrite append_cons, split_cons, (is_digit_not_semicolon_l _ Hc), (IH Hs).
  reflexivity.
Qed.

Lemma digits_contains_trailing s :
  Str.all_digits s = true -> Str.contains ";" (s ++ ";") = true.
Proof.
  induction s as [|c s IH]; [reflexivity |].
  intros H. simpl in H. apply andb_prop in H as [Hc Hs].
  rewrite append_cons, contains_cons, (strip_prefix_semicolon_digit _ _ Hc).
  apply IH, Hs.
Qed.

(** X14. [process_hydride_csv] does not skip empty entries: a cell with
    an empty entry (a doubled or trailing separator) makes the cell
    conversion raise [ValueError]; on the cell of one index followed by
    [;] it raises where [process_hydride_orientations_csv] answers for
    the index. *)
Theorem csv_empty_entry_raises (eigh : matrix -> vec3 * mat3) :
  (forall eta efg_map raw,
     In "" (map Str.strip (Str.split (separator_of raw) raw)) ->
     HydrideCsv.cell_text eta efg_map raw = Raise ValueError)
  /\ (forall eta efg_map raw_map s i, index_cell s i ->
        HydrideCsv.cell_text eta efg_map (s ++ ";") = Raise ValueError
        /\ orientations_text eigh raw_map (s ++ ";")
           = Ok (index_orientation eigh raw_map i)).
Proof.
  assert (forall eta efg_map raw,
     In "" (map Str.strip (Str.split (separator_of raw) raw)) ->
     HydrideCsv.cell_text eta efg_map raw = Raise ValueError) as Hgen.
  { intros eta efg_map raw Hin. unfold HydrideCsv.cell_text.
    rewrite (mapM_result_raises (HydrideCsv.out_entry eta efg_map) ValueError _ ""
               (out_entry_only_ValueError eta efg_map) Hin); reflexivity. }
  split; [exact Hgen |].
  intros eta efg_map raw_map s i H. pose proof H as (Hd & Hne & _).
  assert (separator_of (s ++ ";") = ";"%char) as Hsep.
  { unfold separator_of. rewrite (digits_contains_trailing _ Hd). reflexivity. }
  split.
  - apply Hgen. rewrite Hsep, (digits_split_trailing _ Hd). right. left. reflexivity.
  - unfold orientations_text, cell_entries. rewrite Hsep, (digits_split_trailing _ Hd).
    destruct s as [|c s]; [congruence |]. simpl. unfold entry_result.
    rewrite (index_cell_entry _ _ H). reflexivity.
Qed.

Lemma csv_empty_entry_raises_witness :
  HydrideCsv.cell_text false ∅ "1;;2" = Raise ValueError
  /\ HydrideCsv.cell_text true ∅ "12;" = Raise ValueError
  /\ orientations_text eigh_diagonal ∅ "12;" = Ok (index_orientation eigh_diagonal ∅ 12).
Proof.
  destruct (csv_empty_entry_raises eigh_diagonal) as [H1 H2].
  split.
  - apply H1. vm_compute. right. left. reflexivity.
  - apply (H2 true ∅ ∅ "12" 12). unfold index_cell. repeat split; vm_compute; congruence.
Defined.



(** X16. When the first row has no [Filename] cell, both drivers raise
    [KeyError] and write nothing. *)
Theorem missing_filename_raises
    (eigh : matrix -> vec3 * mat3) (files : folder) (orca_folder_path : string)
    (include_eta : bool) (df : DataFrame) (row : gmap string cell)
    (rest : list (gmap string cell)) :
  rows df = row :: rest -> row !! "Filename" = None ->
  process_hydride_orientations_csv eigh df files orca_folder_path = Raise KeyError
  /\ HydrideCsv.process_hydride_csv df files orca_folder_path include_eta = Raise KeyError.
Proof.
  intros Hr Hf. unfold process_hydride_orientations_csv, HydrideCsv.process_hydride_csv,
    iterrows. rewrite Hr.
  change (zip (seq 0 (length (row :: rest))) (row :: rest))
    with ((0%nat, row) :: zip (seq 1 (length rest)) rest).
  rewrite !for_each_cons.
  unfold orient_row_body, HydrideCsv.row_body, getitem. rewrite Hf. split; reflexivity.
Qed.

Lemma missing_filename_raises_witness :
  process_hydride_orientations_csv eigh_diagonal nameless_table two_nuclei_folder "data_EFG"
  = Raise KeyError
  /\ HydrideCsv.process_hydride_csv nameless_table two_nuclei_folder "data_EFG" true
     = Raise KeyError.
Proof.
  apply (missing_filename_raises eigh_diagonal two_nuclei_folder "data_EFG" true
           nameless_table {[ "Hydrides - mu1H" := Text "1" ]} []).
  - reflexivity.
  - vm_compute. reflexivity.
Defined.

(** X17. No index below zero is ever resolved by
    [process_hydride_orientations_csv], and no index below one by
    [process_hydride_csv]: the keys of both mappings are not negative,
    and the second driver looks up the index minus one. *)
Theorem nonpositive_index_gives_NA (eigh : matrix -> vec3 * mat3) (content : string) :
  (forall raw_map i,
     extract_raw_efg_matrices content = Ok raw_map -> i < 0 ->
     index_orientation eigh raw_map i = "N/A")
  /\ (forall efg_map i eta,
        EqQ.extract_eqQ_and_eta_values content = Ok efg_map -> i <= 0 ->
        HydrideCsv.piece eta efg_map i = if eta then "(N/A,N/A)" else "N/A").
Proof.
  split.
  - intros raw_map i H Hi. unfold index_orientation.
    destruct (raw_map !! i) as [M|] eqn:E; [| reflexivity].
    destruct (keys_from_markers content raw_map i H ltac:(rewrite E; eauto))
      as (line & _ & Hm).
    apply marker_index_nonneg in Hm. lia.
  - intros efg_map i eta H Hi. unfold HydrideCsv.piece.
    destruct (efg_map !! (i - 1)) as [v|] eqn:E; [| reflexivity].
    destruct (eqQ_values_and_keys_aux content efg_map (i - 1) v H E) as [Hk _]. lia.
Qed.

Lemma nonpositive_index_gives_NA_witness :
  index_orientation eigh_diagonal {[ 1 := sample_matrix; 2 := other_matrix ]} (-1) = "N/A"
  /\ HydrideCsv.piece true {[ 1 := (1 # 4, 1 # 2)%Q; 2 := (3 # 4, 1 # 8)%Q ]} 0
     = "(N/A,N/A)".
Proof.
  destruct (nonpositive_index_gives_NA eigh_diagonal two_nuclei_text) as [H1 H2].
  split.
  - apply H1; [vm_compute; reflexivity | lia].
  - apply (H2 _ 0 true); [vm_compute; reflexivity | lia].
Defined.
